(** * couponscraper_wsap: the extraction-and-classification pipeline

    A shallow embedding of [config.py], [utils.py] and the scrape pass of
    [main.py], and the properties of the specification stated over it.

    Conventions of the embedding.
    - Text is a [string], a sequence of 8-bit characters, so the case and
      whitespace primitives are Python's restricted to ASCII text; other
      characters (the emoji of the templates) are carried as their UTF-8
      bytes and left alone.
    - A [dict] whose iteration order matters ([CATEGORIES],
      [categorized_courses]) is an association list in insertion order; a
      [dict] used as a map (the dedupe cache, a course, keyword arguments)
      is a [gmap] with string keys.
    - Code that may raise returns [exn + A].
    - A BeautifulSoup element is the record of what the queries of the
      source find in it; the queries themselves are not modelled and are
      taken not to raise.
    - The browser, the network and the clock are parameters: a type of
      states of the outside, what loading a URL does in a state, and the
      time in a state.
    - [datetime.strptime] and [strftime] are modelled for the two formats
      the program uses, in the C locale, with the year always on four
      digits. *)

From Stdlib Require Import Ascii String List Bool Arith Lia.
From stdpp Require Import base option list gmap strings.

Local Open Scope bool_scope.
Set Warnings "-clear-no-such-hyp".

(* ===================================================================== *)
(** * Python's [str] primitives used by the program                       *)
(* ===================================================================== *)

Module Py.

(** [c.isupper()] / [c.islower()] / [c.isdigit()] on one ASCII character. *)
Definition isupper (c : ascii) : bool :=
  (65 <=? nat_of_ascii c) && (nat_of_ascii c <=? 90).

Definition islower (c : ascii) : bool :=
  (97 <=? nat_of_ascii c) && (nat_of_ascii c <=? 122).

Definition isdigit (c : ascii) : bool :=
  (48 <=? nat_of_ascii c) && (nat_of_ascii c <=? 57).

Definition lower_char (c : ascii) : ascii :=
  if isupper c then ascii_of_nat (nat_of_ascii c + 32) else c.

Definition upper_char (c : ascii) : ascii :=
  if islower c then ascii_of_nat (nat_of_ascii c - 32) else c.

(** [s.lower()] *)
Fixpoint lower (s : string) : string :=
  match s with
  | EmptyString => EmptyString
  | String c s' => String (lower_char c) (lower s')
  end.

(** [c.isspace()]: tab, line feed, vertical tab, form feed, carriage
    return, the four separators 0x1c-0x1f, and space. *)
Definition isspace (c : ascii) : bool :=
  let n := nat_of_ascii c in
  ((9 <=? n) && (n <=? 13)) || ((28 <=? n) && (n <=? 32)).

(** [s.startswith(p)] *)
Fixpoint startswith (s p : string) {struct p} : bool :=
  match p with
  | EmptyString => true
  | String a p' =>
      match s with
      | EmptyString => false
      | String b s' => Ascii.eqb a b && startswith s' p'
      end
  end.

(** [needle in hay] *)
Fixpoint contains (needle hay : string) : bool :=
  startswith hay needle ||
  match hay with
  | EmptyString => false
  | String _ hay' => contains needle hay'
  end.

(** [s.split()] with no separator: the maximal runs of non-whitespace
    characters, left to right; [cur] is the run being read. *)
Definition flush (cur : string) : list string :=
  match cur with
  | EmptyString => []
  | _ => [cur]
  end.

Fixpoint split_go (cur s : string) : list string :=
  match s with
  | EmptyString => flush cur
  | String c s' =>
      if isspace c then flush cur ++ split_go EmptyString s'
      else split_go (cur +:+ String c EmptyString) s'
  end.

Definition split (s : string) : list string := split_go EmptyString s.

(** [any(p(x) for x in l)] *)
Definition any {A} (p : A → bool) (l : list A) : bool := existsb p l.

(** [s.lstrip()], [s.rstrip()], [s.strip()] *)
Fixpoint lstrip (s : string) : string :=
  match s with
  | EmptyString => EmptyString
  | String c s' => if isspace c then lstrip s' else s
  end.

Fixpoint rstrip (s : string) : string :=
  match s with
  | EmptyString => EmptyString
  | String c s' =>
      match rstrip s' with
      | EmptyString => if isspace c then EmptyString else String c EmptyString
      | r => String c r
      end
  end.

Definition strip (s : string) : string := rstrip (lstrip s).

(** [s[n:]] *)
Fixpoint drop_chars (n : nat) (s : string) : string :=
  match n, s with
  | S n', String _ s' => drop_chars n' s'
  | _, _ => s
  end.

(** [s.partition(sep)] when [sep] occurs in [s]: the text before the first
    occurrence and the text after it; [None] when [sep] does not occur. *)
Fixpoint find_first (sep s : string) : option (string * string) :=
  if startswith s sep then Some (EmptyString, drop_chars (String.length sep) s)
  else
    match s with
    | EmptyString => None
    | String c s' =>
        match find_first sep s' with
        | Some (before, after) => Some (String c before, after)
        | None => None
        end
    end.

(** [s.split(sep)] for a non-empty [sep]: cut at the first occurrence and
    go on in the remainder, which is shorter; [n] bounds the number of
    cuts and [String.length s] is enough. *)
Fixpoint split_at (n : nat) (sep s : string) : list string :=
  match n with
  | 0 => [s]
  | S n' =>
      match find_first sep s with
      | None => [s]
      | Some (before, after) => before :: split_at n' sep after
      end
  end.

Definition split_sep (s sep : string) : list string :=
  split_at (String.length s) sep s.

(** [sep.join(parts)] *)
Fixpoint join (sep : string) (parts : list string) : string :=
  match parts with
  | [] => EmptyString
  | [x] => x
  | x :: rest => x +:+ sep +:+ join sep rest
  end.

(** [s.replace(old, new)] for a non-empty [old]: every occurrence found
    scanning left to right without overlap is replaced. *)
Fixpoint replace_at (n : nat) (s old new : string) : string :=
  match n with
  | 0 => s
  | S n' =>
      match find_first old s with
      | None => s
      | Some (before, after) => before +:+ new +:+ replace_at n' after old new
      end
  end.

Definition replace (s old new : string) : string :=
  replace_at (String.length s) s old new.

(** [s.title()]: a cased character is upper-cased when the character
    before it is not cased, and lower-cased otherwise. *)
Fixpoint title_go (previous_is_cased : bool) (s : string) : string :=
  match s with
  | EmptyString => EmptyString
  | String c s' =>
      String (if previous_is_cased then lower_char c else upper_char c)
             (title_go (isupper c || islower c) s')
  end.

Definition title (s : string) : string := title_go false s.

(** The values that occur in a course dict, and [str(v)]. *)
Inductive value :=
| VNone
| VStr (s : string).

Definition str (v : value) : string :=
  match v with
  | VNone => "None"
  | VStr s => s
  end.

(** [d.get(key, default)] *)
Definition get (d : gmap string value) (key : string) (default : value) : value :=
  match d !! key with
  | Some v => v
  | None => default
  end.

(** The exceptions the modelled code can raise. *)
Inductive exn :=
| KeyError (key : string)
| IndexError
| ValueError (msg : string)
| NotModelled.

(** Code that may raise returns [exn + A]; [x ← e; k] runs [k] unless [e]
    raised. *)
#[global] Instance exn_ret : MRet (sum exn) := fun A x => inr x.
#[global] Instance exn_bind : MBind (sum exn) := fun A B f m =>
  match m with
  | inl e => inl e
  | inr x => f x
  end.

(** [d[key]] *)
Definition subscript (d : gmap string value) (key : string) : exn + value :=
  match d !! key with
  | Some v => inr v
  | None => inl (KeyError key)
  end.

(** [template.format(k1=v1, ...)] for templates whose replacement fields are
    plain keyword names.  The template is scanned left to right: [{{] and
    [}}] stand for one brace, [{name}] is replaced by [str(kwargs[name])].
    The first fault met raises: a name that is not a key raises [KeyError],
    an empty or numeric name refers to a positional argument, of which
    there are none, and raises [IndexError], an unbalanced brace raises
    [ValueError].  A field with a conversion, a format specification, an
    attribute or an index is outside the model. *)
Inductive scan_state :=
| Literal                  (* in literal text *)
| Opened                   (* just read a left brace *)
| InField (name : string)  (* inside a replacement field *)
| Closed.                  (* just read a right brace in literal text *)

Fixpoint all_digits (s : string) : bool :=
  match s with
  | EmptyString => true
  | String c s' => isdigit c && all_digits s'
  end.

Definition field_value (kwargs : gmap string value) (name : string) : exn + string :=
  if all_digits name then inl IndexError
  else
    match kwargs !! name with
    | Some v => inr (str v)
    | None => inl (KeyError name)
    end.

Definition emit (text : string) (rest : exn + string) : exn + string :=
  match rest with
  | inr s => inr (text +:+ s)
  | inl e => inl e
  end.

Definition field_char (c : ascii) : bool :=
  negb (existsb (Ascii.eqb c) ["{"; "!"; ":"; "."; "["]%char).

Fixpoint format_scan (kwargs : gmap string value) (st : scan_state) (s : string)
  : exn + string :=
  match s with
  | EmptyString =>
      match st with
      | Literal => inr EmptyString
      | Opened => inl (ValueError "Single '{' encountered in format string")
      | InField _ => inl (ValueError "expected '}' before end of string")
      | Closed => inl (ValueError "Single '}' encountered in format string")
      end
  | String c s' =>
      match st with
      | Literal =>
          if Ascii.eqb c "{" then format_scan kwargs Opened s'
          else if Ascii.eqb c "}" then format_scan kwargs Closed s'
          else emit (String c EmptyString) (format_scan kwargs Literal s')
      | Opened =>
          if Ascii.eqb c "{" then emit "{" (format_scan kwargs Literal s')
          else if Ascii.eqb c "}" then
            match field_value kwargs EmptyString with
            | inr v => emit v (format_scan kwargs Literal s')
            | inl e => inl e
            end
          else if field_char c then format_scan kwargs (InField (String c EmptyString)) s'
          else inl NotModelled
      | InField name =>
          if Ascii.eqb c "}" then
            match field_value kwargs name with
            | inr v => emit v (format_scan kwargs Literal s')
            | inl e => inl e
            end
          else if field_char c then
            format_scan kwargs (InField (name +:+ String c EmptyString)) s'
          else inl NotModelled
      | Closed =>
          if Ascii.eqb c "}" then emit "}" (format_scan kwargs Literal s')
          else inl (ValueError "Single '}' encountered in format string")
      end
  end.

Definition format (template : string) (kwargs : gmap string value) : exn + string :=
  format_scan kwargs Literal template.

End Py.

(* ===================================================================== *)
(** * config.py                                                           *)
(* ===================================================================== *)

Module Config.

Definition BASE_URL : string := "https://www.real.discount".

(** One value of the [CATEGORIES] dict. *)
Record category_data := {
  keywords : list string;
  group_id : string
}.

(** A dict from category name to its data, in iteration (declaration)
    order. *)
Definition categories := list (string * category_data).

Definition CATEGORIES : categories :=
  [ ("personal_development",
      {| keywords := ["personal development"; "soft skills"; "leadership"; "communication"];
         group_id := "PERSONAL_DEV_GROUP" |});
    ("cybersecurity",
      {| keywords := ["cybersecurity"; "security"; "ethical hacking"; "penetration testing"; "cyber"];
         group_id := "CYBERSEC_GROUP" |});
    ("crypto",
      {| keywords := ["cryptocurrency"; "blockchain"; "bitcoin"; "crypto"; "web3"];
         group_id := "CRYPTO_GROUP" |});
    ("marketing",
      {| keywords := ["marketing"; "digital marketing"; "social media marketing"];
         group_id := "MARKETING_GROUP" |});
    ("backend",
      {| keywords := ["backend"; "python"; "java"; "nodejs"; "php"; "database"];
         group_id := "BACKEND_GROUP" |});
    ("web_design",
      {| keywords := ["web design"; "html"; "css"; "ui design"];
         group_id := "WEBDESIGN_GROUP" |});
    ("design",
      {| keywords := ["graphic design"; "photoshop"; "illustrator"; "figma"];
         group_id := "DESIGN_GROUP" |});
    ("fullstack",
      {| keywords := ["full stack"; "fullstack"; "mern"; "mean"; "web development"];
         group_id := "FULLSTACK_GROUP" |});
    ("app_development",
      {| keywords := ["application development"; "software development"; "app development"];
         group_id := "APPDEV_GROUP" |});
    ("mobile",
      {| keywords := ["mobile development"; "android"; "ios"; "flutter"; "react native"];
         group_id := "MOBILE_GROUP" |});
    ("cloud",
      {| keywords := ["cloud computing"; "aws"; "azure"; "google cloud"; "devops"];
         group_id := "CLOUD_GROUP" |});
    ("quantum",
      {| keywords := ["quantum computing"; "quantum"; "quantum mechanics"];
         group_id := "QUANTUM_GROUP" |});
    ("seo",
      {| keywords := ["seo"; "search engine optimization"; "google analytics"];
         group_id := "SEO_GROUP" |});
    ("software",
      {| keywords := ["software"; "tools"; "applications"; "productivity"];
         group_id := "SOFTWARE_GROUP" |}) ].

Definition MESSAGE_TEMPLATE : string :=
"🎓 *New {category} Courses*

{courses}

🔍 More deals at: real.discount".

Definition COURSE_TEMPLATE : string :=
"
📚 *{title}*
💰 Original Price: {original_price}
🏷️ Coupon: {coupon_code}
⏰ Expires: {expiry_date}
🔗 {url}
".

End Config.

(* ===================================================================== *)
(** * utils.py                                                            *)
(* ===================================================================== *)

Module Utils.
Import Config.

(** [for category, data in categories.items(): if test(data): return category] *)
Fixpoint first_category (test : category_data → bool) (cats : categories)
  : option string :=
  match cats with
  | [] => None
  | (category, data) :: rest =>
      if test data then Some category else first_category test rest
  end.

(** The test of the first loop:
    [any(keyword in title_desc for keyword in data['keywords'])]. *)
Definition keyword_test (title_desc : string) (data : category_data) : bool :=
  Py.any (fun keyword => Py.contains keyword title_desc) (keywords data).

(** The test of the second loop:
    [any(any(word in keyword for word in title_desc.split())
         for keyword in data['keywords'])]. *)
Definition partial_test (title_desc : string) (data : category_data) : bool :=
  Py.any (fun keyword =>
            Py.any (fun word => Py.contains word keyword) (Py.split title_desc))
         (keywords data).

Definition categorize_course (title description : string) (cats : categories)
  : string :=
  let title_desc := Py.lower (title +:+ " " +:+ description) in
  match first_category (keyword_test title_desc) cats with
  | Some category => category
  | None =>
      match first_category (partial_test title_desc) cats with
      | Some category => category
      | None => "other"
      end
  end.

(** The file [cache/processed_courses.json]: absent, or the JSON object it
    holds, a dict from URL to timestamp ([json.dump] followed by
    [json.load] gives back a dict of strings unchanged). *)
Definition load_cache (file : option (gmap string string)) : gmap string string :=
  match file with
  | Some cache => cache
  | None => ∅
  end.

Definition save_cache (cache : gmap string string) : option (gmap string string) :=
  Some cache.

(** One turn of the loop of [format_whatsapp_message]. *)
Definition course_text (template : string) (course : gmap string Py.value)
  : Py.exn + string :=
  title ← Py.subscript course "title";
  let original_price := Py.get course "original_price" (Py.VStr "N/A") in
  let coupon_code := Py.get course "coupon_code" (Py.VStr "N/A") in
  let expiry_date := Py.get course "expiry_date" (Py.VStr "N/A") in
  url ← Py.subscript course "url";
  Py.format template
    (list_to_map [("title", title); ("original_price", original_price);
                  ("coupon_code", coupon_code); ("expiry_date", expiry_date);
                  ("url", url)]).

Fixpoint format_courses (template : string) (courses : list (gmap string Py.value))
  : Py.exn + list string :=
  match courses with
  | [] => mret []
  | course :: rest =>
      text ← course_text template course;
      texts ← format_courses template rest;
      mret (text :: texts)
  end.

Definition newline : string := String "010" EmptyString.

Definition format_whatsapp_message (courses : list (gmap string Py.value))
    (category template : string) : Py.exn + string :=
  formatted_courses ← format_courses template courses;
  Py.format template
    (list_to_map
       [("category", Py.VStr (Py.title (Py.replace category "_" " ")));
        ("courses", Py.VStr (Py.join newline (take 10 formatted_courses)))]).

(** ** [datetime.strptime(date_str, '%Y-%m-%d')]

    [strptime] turns the format into the regular expression
    [(\d\d\d\d)-(1[0-2]|0[1-9]|[1-9])-(3[0-1]|[1-2]\d|0[1-9]|[1-9]| [1-9])],
    matches it at the start of the text, rejects text left over after the
    match, and builds the date, which rejects year 0 and a day the month
    does not have.  Each of these faults is a [ValueError]. *)

Definition digit (c : ascii) : nat :=
  if Py.isdigit c then nat_of_ascii c - 48 else 0.

Definition between (lo hi : ascii) (c : ascii) : bool :=
  (nat_of_ascii lo <=? nat_of_ascii c) && (nat_of_ascii c <=? nat_of_ascii hi).

(** A regular expression for a number: the matches at the head of the
    text, in the order a backtracking matcher tries them, each with the
    number read and the text after it. *)
Definition two (p1 p2 : ascii → bool) (s : string) : list (nat * string) :=
  match s with
  | String a (String b rest) =>
      if p1 a && p2 b then [(10 * digit a + digit b, rest)] else []
  | _ => []
  end.

Definition one (p : ascii → bool) (s : string) : list (nat * string) :=
  match s with
  | String a rest => if p a then [(digit a, rest)] else []
  | _ => []
  end.

(** [%Y]: [\d\d\d\d] *)
Definition re_Y (s : string) : list (nat * string) :=
  match s with
  | String a (String b (String c (String d rest))) =>
      if Py.isdigit a && Py.isdigit b && Py.isdigit c && Py.isdigit d
      then [(1000 * digit a + 100 * digit b + 10 * digit c + digit d, rest)]
      else []
  | _ => []
  end.

(** [%m]: [1[0-2]|0[1-9]|[1-9]] *)
Definition re_m (s : string) : list (nat * string) :=
  two (Ascii.eqb "1") (between "0" "2") s ++
  two (Ascii.eqb "0") (between "1" "9") s ++
  one (between "1" "9") s.

(** [%d]: [3[0-1]|[1-2]\d|0[1-9]|[1-9]| [1-9]] *)
Definition re_d (s : string) : list (nat * string) :=
  two (Ascii.eqb "3") (between "0" "1") s ++
  two (between "1" "2") Py.isdigit s ++
  two (Ascii.eqb "0") (between "1" "9") s ++
  one (between "1" "9") s ++
  two (Ascii.eqb " ") (between "1" "9") s.

(** A literal character of the format. *)
Definition lit (c : ascii) (s : string) : list string :=
  match s with
  | String a rest => if Ascii.eqb a c then [rest] else []
  | EmptyString => []
  end.

(** [-%m-%d]: the matches of the part after the year, in order. *)
Definition re_md (s1 : string) : list (nat * nat * string) :=
  s2 ← lit "-" s1; '(m, s3) ← re_m s2;
  s4 ← lit "-" s3; '(d, s5) ← re_d s4;
  [(m, d, s5)].

(** The first match of the whole expression: year, month, day and the text
    left over. *)
Definition re_Ymd (s : string) : option (nat * nat * nat * string) :=
  head ('(y, s1) ← re_Y s; '(m, d, s5) ← re_md s1; [(y, m, d, s5)]).

Definition is_leap (y : nat) : bool :=
  (y mod 4 =? 0) && (negb (y mod 100 =? 0) || (y mod 400 =? 0)).

Definition days_in_month (y m : nat) : nat :=
  match m with
  | 2 => if is_leap y then 29 else 28
  | 4 | 6 | 9 | 11 => 30
  | _ => 31
  end.

Definition strptime_Ymd (date_str : string) : Py.exn + (nat * nat * nat) :=
  match re_Ymd date_str with
  | None => inl (Py.ValueError "time data does not match format")
  | Some (y, m, d, EmptyString) =>
      if (1 <=? y) && (d <=? days_in_month y m) then inr (y, m, d)
      else inl (Py.ValueError "date out of range")
  | Some _ => inl (Py.ValueError "unconverted data remains")
  end.

(** ** [date_obj.strftime('%B %d, %Y')]: the English month name, the day
    on two digits, the year on four. *)
Definition month_name (m : nat) : string :=
  match m with
  | 1 => "January" | 2 => "February" | 3 => "March" | 4 => "April"
  | 5 => "May" | 6 => "June" | 7 => "July" | 8 => "August"
  | 9 => "September" | 10 => "October" | 11 => "November" | _ => "December"
  end.

Definition digit_char (n : nat) : ascii := ascii_of_nat (48 + n mod 10).

Definition pad2 (n : nat) : string :=
  String (digit_char (n / 10)) (String (digit_char n) EmptyString).

Definition pad4 (n : nat) : string :=
  String (digit_char (n / 1000)) (String (digit_char (n / 100)) (pad2 n)).

Definition strftime_B_d_Y (date_obj : nat * nat * nat) : string :=
  let '(y, m, d) := date_obj in
  month_name m +:+ " " +:+ pad2 d +:+ ", " +:+ pad4 y.

Definition parse_expiry_date (date_str : option string) : option string :=
  match date_str with
  | None => None
  | Some EmptyString => None
  | Some s =>
      match strptime_Ymd s with
      | inr date_obj => Some (strftime_B_d_Y date_obj)
      | inl _ => Some s
      end
  end.

End Utils.

(* ===================================================================== *)
(** * main.py                                                             *)
(* ===================================================================== *)

Module Main.
Import Config Utils.

(** What the BeautifulSoup queries of [parse_course_element] find in one
    [<li>] element.  Each field is the result of one query of the source,
    [None] when the query finds nothing. *)
Record element := {
  (* element.find(['h3', 'h4', 'h5']): the text of the first heading *)
  find_heading : option string;
  (* element.find('a'): the href attribute of the first anchor, when the
     anchor has one *)
  find_a : option (option string);
  (* the first hit of the chain of four queries for a description: its text *)
  find_description : option string;
  (* element.find(string=...): the first text with a dollar sign or "free" *)
  find_price : option string;
  (* the first hit of the chain of three queries for an expiry: its text *)
  find_expiry : option string
}.

(** A rendered page, as the two queries on a whole page see it:
    [soup.find_all('li')] and the [href] attributes of its anchors in
    document order. *)
Record document := {
  find_all_li : list element;
  anchors : list (option string)
}.

(** What loading a URL in the browser session and reading the page gives:
    [driver.get] raises an exception with the given message, or the page
    loads and reading or parsing it raises, or the page is rendered. *)
Inductive outcome :=
| NavigationError (msg : string)
| PageError (msg : string)
| Rendered (doc : document).

(** The dict returned by [parse_course_element]; its keys are fixed, so it
    is a record here and [as_dict] is the dict itself. *)
Record course := {
  title : string;
  description : string;
  url : string;
  udemy_url : option string;
  original_price : string;
  coupon_code : option string;
  expiry_date : option string;
  category : string
}.

Definition optional (o : option string) : Py.value :=
  match o with
  | Some s => Py.VStr s
  | None => Py.VNone
  end.

Definition as_dict (c : course) : gmap string Py.value :=
  list_to_map
    [("title", Py.VStr (title c));
     ("description", Py.VStr (description c));
     ("url", Py.VStr (url c));
     ("udemy_url", optional (udemy_url c));
     ("original_price", Py.VStr (original_price c));
     ("coupon_code", optional (coupon_code c));
     ("expiry_date", optional (expiry_date c));
     ("category", Py.VStr (category c))].

(** [l[i]] *)
Definition index {A} (l : list A) (i : nat) : Py.exn + A :=
  match l !! i with
  | Some x => inr x
  | None => inl Py.IndexError
  end.

(** Truth value of a string: [if s:] *)
Definition truthy (s : string) : bool :=
  match s with
  | EmptyString => false
  | _ => true
  end.

(** [soup.find('a', href=lambda x: x and 'udemy.com' in x)['href']] *)
Definition find_udemy_link (doc : document) : option string :=
  head (omap (fun href =>
                match href with
                | Some x => if truthy x && Py.contains "udemy.com" x then Some x else None
                | None => None
                end) (anchors doc)).

(** Lines 205-210: the coupon code carried by the Udemy URL. *)
Definition coupon_param : string := "couponCode=".

Definition extract_coupon_code (udemy_url : option string) : Py.exn + option string :=
  match udemy_url with
  | Some u =>
      if truthy u then
        if Py.contains coupon_param u then
          after ← index (Py.split_sep u coupon_param) 1;
          code ← index (Py.split_sep after "&") 0;
          mret (Some code)
        else mret None
      else mret None
  | None => mret None
  end.

Section pipeline.

(** The outside of the program: the state of the network and the source
    site, what loading a URL does in a given state, and the clock. *)
Variable world : Type.
Variable navigate : world → string → world * outcome.
Variable now : world → string.

(** The browser session: the state of the outside and the URLs requested
    so far, oldest first. *)
Record driver := {
  net : world;
  requests : list string
}.

(** [self.driver.get(url)] followed by reading [self.driver.page_source]. *)
Definition driver_get (d : driver) (url : string) : driver * outcome :=
  let '(w, o) := navigate (net d) url in
  ({| net := w; requests := requests d ++ [url] |}, o).

(** Lines 168-196: visit the coupon page and look for the Udemy link.
    Returns the session, the value of [coupon_url] afterwards and
    [udemy_url]. *)
Definition visit_coupon_page (d : driver) (coupon_url : string)
  : driver * string * option string :=
  let '(d, o) := driver_get d coupon_url in
  match o with
  | NavigationError e =>
      if Py.contains "ERR_NAME_NOT_RESOLVED" e then
        let coupon_url := Py.replace coupon_url "real.discount" "www.real.discount" in
        let '(d, o) := driver_get d coupon_url in
        match o with
        | Rendered doc => (d, coupon_url, find_udemy_link doc)
        | _ => (d, coupon_url, None)
        end
      else (d, coupon_url, None)
  | PageError _ => (d, coupon_url, None)
  | Rendered doc => (d, coupon_url, find_udemy_link doc)
  end.

(** Lines 147-157: the coupon URL of a listing, [None] when the listing is
    skipped. *)
Definition coupon_url_of (href : option string) : option string :=
  let coupon_url := Py.strip (default EmptyString href) in
  if truthy coupon_url then
    if Py.startswith coupon_url "http" then Some coupon_url
    else Some ("https://real.discount" +:+ coupon_url)
  else None.

Definition parse_course_element (d : driver) (element : element)
  : driver * option course :=
  match find_heading element with
  | None => (d, None)
  | Some heading =>
      let title := Py.strip heading in
      match find_a element with
      | None => (d, None)
      | Some href =>
          match coupon_url_of href with
          | None => (d, None)
          | Some coupon_url =>
              let description :=
                match find_description element with
                | Some text => Py.strip text
                | None => title
                end in
              let '(d, coupon_url, udemy_url) := visit_coupon_page d coupon_url in
              let original_price :=
                match find_price element with
                | Some text => Py.strip text
                | None => "N/A"
                end in
              let category := categorize_course title description CATEGORIES in
              match extract_coupon_code udemy_url with
              | inl _ => (d, None)
              | inr coupon_code =>
                  let expiry_date :=
                    match find_expiry element with
                    | Some text => parse_expiry_date (Some (Py.strip text))
                    | None => None
                    end in
                  (d, Some {| title := title;
                              description := description;
                              url := match udemy_url with
                                     | Some u => if truthy u then u else coupon_url
                                     | None => coupon_url
                                     end;
                              udemy_url := udemy_url;
                              original_price := original_price;
                              coupon_code := coupon_code;
                              expiry_date := expiry_date;
                              category := category |})
              end
          end
      end
  end.

(** The loop of [scrape_courses] (lines 118-128) over the [<li>] elements
    still to visit, with the session, [self.cache] and [courses] as they
    stand. *)
Fixpoint scrape_loop (elements : list element) (d : driver)
    (cache : gmap string string) (courses : list course)
  : driver * gmap string string * list course :=
  match elements with
  | [] => (d, cache, courses)
  | element :: rest =>
      if bool_decide (is_Some (find_a element)) &&
         bool_decide (is_Some (find_heading element)) then
        let '(d, parsed) := parse_course_element d element in
        match parsed with
        | Some course =>
            if bool_decide (url course ∉ dom cache) then
              scrape_loop rest d (<[url course := now (net d)]> cache)
                          (courses ++ [course])
            else scrape_loop rest d cache courses
        | None => scrape_loop rest d cache courses
        end
      else scrape_loop rest d cache courses
  end.

(** The scraper object: the browser session, [self.cache] and
    [self.group_ids]. *)
Record scraper := {
  driver_of : driver;
  cache : gmap string string;
  group_ids : gmap string string
}.

(** [scrape_courses]: the scraper afterwards, the cache file afterwards and
    the list returned.  The scrolling of lines 97-109 only decides what the
    page source holds and is part of what [navigate] yields for the
    listing page; a fault in it is a fault of the page. *)
Definition scrape_courses (self : scraper) (file : option (gmap string string))
  : scraper * option (gmap string string) * list course :=
  let '(d, o) := driver_get (driver_of self) BASE_URL in
  match o with
  | Rendered soup =>
      let '(d, cache, courses) :=
        scrape_loop (find_all_li soup) d (cache self) [] in
      ({| driver_of := d; cache := cache; group_ids := group_ids self |},
       save_cache cache, courses)
  | _ =>
      ({| driver_of := d; cache := cache self; group_ids := group_ids self |},
       file, [])
  end.

(** [__init__]: the cache is loaded from the file, and a category has a
    group id when its environment variable is set and not empty. *)
Definition load_group_ids (getenv : string → option string) : gmap string string :=
  foldl (fun ids '(category, data) =>
           match getenv (Config.group_id data) with
           | Some group_id => if truthy group_id then <[category := group_id]> ids else ids
           | None => ids
           end) ∅ CATEGORIES.

Definition init (w : world) (getenv : string → option string)
    (file : option (gmap string string)) : scraper :=
  {| driver_of := {| net := w; requests := [] |};
     cache := load_cache file;
     group_ids := load_group_ids getenv |}.

(** Lines 255-261: [categorized_courses], a dict from category to the list
    of its courses, in order of first insertion. *)
Fixpoint add_course (c : course) (groups : list (string * list course))
  : list (string * list course) :=
  match groups with
  | [] => [(category c, [c])]
  | (name, cs) :: rest =>
      if String.eqb name (category c) then (name, cs ++ [c]) :: rest
      else (name, cs) :: add_course c rest
  end.

Definition categorized_courses (courses : list course) : list (string * list course) :=
  foldl (fun groups c => add_course c groups) [] courses.

(** Lines 263-272: the messages handed to [send_whatsapp_message], each
    with its group id, up to the first exception raised by
    [format_whatsapp_message], if any. *)
Fixpoint send_all (ids : gmap string string) (groups : list (string * list course))
  : list (string * string) * option Py.exn :=
  match groups with
  | [] => ([], None)
  | (name, category_courses) :: rest =>
      match ids !! name with
      | Some group_id =>
          match format_whatsapp_message (as_dict <$> category_courses) name
                  MESSAGE_TEMPLATE with
          | inr message =>
              let '(sent, raised) := send_all ids rest in
              ((group_id, message) :: sent, raised)
          | inl e => ([], Some e)
          end
      | None => send_all ids rest
      end
  end.

Definition process_and_send_courses (self : scraper)
    (file : option (gmap string string))
  : scraper * option (gmap string string) * (list (string * string) * option Py.exn) :=
  let '(self, file, courses) := scrape_courses self file in
  match courses with
  | [] => (self, file, ([], None))
  | _ => (self, file, send_all (group_ids self) (categorized_courses courses))
  end.

(** The life of the program and its cache file: the program is started
    (the scraper is built, on a fresh session in the given state of the
    outside), or the running scraper makes one scrape pass. *)
Inductive event :=
| Start (w : world) (getenv : string → option string)
| Pass.

Record system := {
  running : scraper;
  file_of : option (gmap string string)
}.

Definition step (sys : system) (ev : event) : system :=
  match ev with
  | Start w getenv =>
      {| running := init w getenv (file_of sys); file_of := file_of sys |}
  | Pass =>
      let '(self, file, _) := scrape_courses (running sys) (file_of sys) in
      {| running := self; file_of := file |}
  end.

Definition run (sys : system) (events : list event) : system :=
  foldl step sys events.

End pipeline.

Arguments net {world} d.
Arguments requests {world} d.
Arguments driver_of {world} s.
Arguments cache {world} s.
Arguments group_ids {world} s.
Arguments running {world} s.
Arguments file_of {world} s.
Arguments Start {world} w getenv.
Arguments Pass {world}.
Arguments driver_get {world} navigate d url.
Arguments visit_coupon_page {world} navigate d coupon_url.
Arguments parse_course_element {world} navigate d element.
Arguments scrape_loop {world} navigate now elements d cache courses.
Arguments scrape_courses {world} navigate now self file.
Arguments init {world} w getenv file.
Arguments process_and_send_courses {world} navigate now self file.
Arguments step {world} navigate now sys ev.
Arguments run {world} navigate now sys events.

End Main.

(* ===================================================================== *)
(** * Specification vocabulary                                            *)
(* ===================================================================== *)

(** [kw] occurs in [s] as a literal substring. *)
Definition Substring (kw s : string) : Prop :=
  ∃ a b, s = a +:+ kw +:+ b.








(** ** Expiry dates *)




(** The long form "Month DD, YYYY" of a date. *)
Definition long_date (y m d : nat) : string :=
  Utils.month_name m +:+ " " +:+ Utils.pad2 d +:+ ", " +:+ Utils.pad4 y.




(** ** Query parameters of a URL, after the specification's words: the
    query is the text after the first question mark and before the
    fragment, its parameters are separated by ampersands, and the name of a
    parameter is the text before its first equals sign. *)
Definition query_string (url : string) : string :=
  let no_fragment :=
    match Py.find_first "#" url with
    | Some (before, _) => before
    | None => url
    end in
  match Py.find_first "?" no_fragment with
  | Some (_, query) => query
  | None => EmptyString
  end.

Definition query_parameters (url : string) : list (string * string) :=
  (fun p => match Py.find_first "=" p with
            | Some (name, v) => (name, v)
            | None => (p, EmptyString)
            end) <$> Py.split_sep (query_string url) "&".

Definition query_parameter (name url : string) : option string :=
  snd <$> List.find (fun p => String.eqb (fst p) name) (query_parameters url).

(** ** A text starts with a URL scheme: a letter, then letters, digits,
    plus, minus or dot, then a colon. *)
Fixpoint scheme_rest (s : string) : bool :=
  match s with
  | EmptyString => false
  | String c s' =>
      if Ascii.eqb c ":" then true
      else if Py.isupper c || Py.islower c || Py.isdigit c ||
              existsb (Ascii.eqb c) ["+"; "-"; "."]%char
           then scheme_rest s'
           else false
  end.

Definition starts_with_scheme (s : string) : bool :=
  match s with
  | EmptyString => false
  | String c s' => (Py.isupper c || Py.islower c) && scheme_rest s'
  end.

(** ** The scrape pass *)

(** The courses [parse_course_element] returns for the elements the loop
    of [scrape_courses] parses, in page order. *)
Fixpoint parsed_courses {world} (navigate : world → string → world * Main.outcome)
    (elements : list Main.element) (d : Main.driver world) : list Main.course :=
  match elements with
  | [] => []
  | element :: rest =>
      if bool_decide (is_Some (Main.find_a element)) &&
         bool_decide (is_Some (Main.find_heading element)) then
        let '(d, parsed) := Main.parse_course_element navigate d element in
        match parsed with
        | Some c => c :: parsed_courses navigate rest d
        | None => parsed_courses navigate rest d
        end
      else parsed_courses navigate rest d
  end.

(** The courses of a list whose URL is neither in [seen] nor the URL of an
    earlier course of the list. *)
Fixpoint first_seen (seen : gset string) (l : list Main.course) : list Main.course :=
  match l with
  | [] => []
  | c :: rest =>
      if bool_decide (Main.url c ∈ seen) then first_seen seen rest
      else c :: first_seen ({[Main.url c]} ∪ seen) rest
  end.

(** The cache of the running scraper is what the cache file holds. *)
Definition in_step {world} (sys : Main.system world) : Prop :=
  Main.cache (Main.running sys) = Utils.load_cache (Main.file_of sys).

(** Resolution of a course has degraded to the fallback URL. *)
Definition degraded (c : Main.course) (fallback : string) : Prop :=
  Main.url c = fallback ∧ Main.udemy_url c = None ∧ Main.coupon_code c = None.

(** ** A small site, to run the pipeline on

    The listing page has two listings that lead to the same Udemy course, a
    listing whose host does not resolve under either name, a listing whose
    link is blank and a listing without a link.  The state of the outside
    is the number of pages requested so far, which is also the clock. *)
Module Demo.
Import Main.

Definition ethical_hacking : element :=
  {| find_heading := Some " Intro to Ethical Hacking ";
     find_a := Some (Some "/go/abc");
     find_description := Some "penetration testing basics";
     find_price := Some "$19.99";
     find_expiry := Some "2025-03-15" |}.

Definition ethical_hacking_again : element :=
  {| find_heading := Some "Ethical Hacking, second listing";
     find_a := Some (Some "https://real.discount/go/abc2");
     find_description := None;
     find_price := None;
     find_expiry := Some "Ends soon" |}.

Definition unreachable : element :=
  {| find_heading := Some "Python for Beginners";
     find_a := Some (Some "/go/dns");
     find_description := None;
     find_price := Some "Free";
     find_expiry := None |}.

Definition blank_link : element :=
  {| find_heading := Some "No link here";
     find_a := Some (Some "   ");
     find_description := None;
     find_price := None;
     find_expiry := None |}.

Definition no_link : element :=
  {| find_heading := Some "Just a heading";
     find_a := None;
     find_description := None;
     find_price := None;
     find_expiry := None |}.

Definition udemy : string :=
  "https://www.udemy.com/course/ethical-hacking/?couponCode=FREE2025&utm=x".

Definition listing : document :=
  {| find_all_li :=
       [ethical_hacking; blank_link; ethical_hacking_again; no_link; unreachable];
     anchors := [] |}.

Definition detail : document :=
  {| find_all_li := [];
     anchors := [None; Some "https://real.discount/about"; Some udemy] |}.

Definition site (url : string) : outcome :=
  if String.eqb url Config.BASE_URL then Rendered listing
  else if String.eqb url "https://real.discount/go/abc" then Rendered detail
  else if String.eqb url "https://real.discount/go/abc2" then Rendered detail
  else if Py.contains "/go/dns" url
       then NavigationError "unknown error: net::ERR_NAME_NOT_RESOLVED"
  else NavigationError "unknown error: net::ERR_CONNECTION_REFUSED".

Definition navigate (w : nat) (url : string) : nat * outcome := (S w, site url).

Definition now (w : nat) : string := "2025-01-01T00:00:" +:+ Utils.pad2 w.

Definition getenv (key : string) : option string :=
  if String.eqb key "CYBERSEC_GROUP" then Some "GroupInviteCode" else None.

Definition fresh : driver nat := {| net := 0; requests := [] |}.

(** A program that has started on a cache file with one URL in it. *)
Definition seen_before : gmap string string :=
  {[ "https://www.udemy.com/course/old/" := "2024-12-31T00:00:00" ]}.

Definition started : system nat :=
  {| running := init 0 getenv (Some seen_before);
     file_of := Some seen_before |}.

End Demo.

(** ** More vocabulary for the categorizer *)


(** The test of the Udemy link query on one [href] attribute. *)
Definition udemy_href (href : option string) : option string :=
  match href with
  | Some x => if Main.truthy x && Py.contains "udemy.com" x then Some x else None
  | None => None
  end.

(** ** Vocabulary for the group ids

    A rule's environment variable is set to a non-empty value [gid]. *)
Definition group_id_of (getenv : string → option string)
    (data : Config.category_data) (gid : string) : Prop :=
  getenv (Config.group_id data) = Some gid ∧ Main.truthy gid = true.

(** ** The scroll loop of [scrape_courses] (lines 97-109)

    [height k] is what [document.body.scrollHeight] reads after [k]
    scrolls.  The loop scrolls, reads the height, and stops when the height
    is the one read before or when five scrolls were made; it yields the
    number of scrolls made and the last height read.  [turns] bounds the
    number of turns of the [while True]; five are enough. *)
Fixpoint scroll_loop (height : nat → nat) (turns last_height scroll_count : nat)
  : nat * nat :=
  match turns with
  | 0 => (scroll_count, last_height)
  | S turns' =>
      let new_height := height (S scroll_count) in
      let scroll_count := S scroll_count in
      if (new_height =? last_height) || (5 <=? scroll_count)
      then (scroll_count, new_height)
      else scroll_loop height turns' new_height scroll_count
  end.

Definition scroll_to_load (height : nat → nat) : nat * nat :=
  scroll_loop height 5 (height 0) 0.

(* ===================================================================== *)
(** * Properties                                                          *)
(* ===================================================================== *)

(** ** Strings *)

Section string_facts.
Implicit Types s p a b : string.


Lemma sapp_cons x a b : String x a +:+ b = String x (a +:+ b).
Proof. reflexivity. Qed.

Lemma sapp_nil_r s : s +:+ EmptyString = s.
Proof. induction s as [|c s IH]; [done | by rewrite sapp_cons, IH]. Qed.

Lemma sapp_assoc a b c : (a +:+ b) +:+ c = a +:+ b +:+ c.
Proof. induction a as [|x a IH]; [done | by rewrite !sapp_cons, IH]. Qed.

Lemma sapp_length a b :
  String.length (a +:+ b) = String.length a + String.length b.
Proof. induction a as [|x a IH]; [done | by rewrite sapp_cons; simpl; rewrite IH]. Qed.

Lemma startswith_spec s p : Py.startswith s p = true ↔ ∃ r, s = p +:+ r.
Proof.
  revert s. induction p as [|x p IH]; intros s; simpl.
  - split; [by exists s | done].
  - destruct s as [|y s]; simpl.
    + split; [done | by intros [r Hr]].
    + rewrite andb_true_iff, Ascii.eqb_eq, IH. split.
      * intros [-> [r ->]]. eauto.
      * intros [r Hr]. rewrite sapp_cons in Hr. injection Hr as -> ->. eauto.
Qed.

Lemma contains_spec kw s : Py.contains kw s = true ↔ Substring kw s.
Proof.
  unfold Substring. induction s as [|y s IH]; simpl.
  - rewrite orb_false_r, startswith_spec. split.
    + intros [r Hr]. by exists EmptyString, r.
    + intros ([|x a] & b & Hab); [eauto | done].
  - rewrite orb_true_iff, IH, startswith_spec. split.
    + intros [[r Hr] | (a & b & Hab)].
      * by exists EmptyString, r.
      * exists (String y a), b. by rewrite sapp_cons, Hab.
    + intros ([|x a] & b & Hab).
      * left. eauto.
      * right. rewrite sapp_cons in Hab. injection Hab as -> ->. eauto.
Qed.

Lemma contains_false kw s : Py.contains kw s = false ↔ ¬ Substring kw s.
Proof. rewrite <- contains_spec. by destruct (Py.contains kw s). Qed.


End string_facts.

(** ** Whitespace-delimited tokens *)

Section tokens.
Implicit Types s w a b cur : string.







End tokens.

(** ** The two tests of the categorizer decide the two kinds of hit *)






(** ** The rule loop returns the first rule that passes the test *)




(** ** Categorizer *)

Section categorizer.
Import Config Utils.










(** The end-to-end example of the specification. *)
Example categorize_ethical_hacking :
  categorize_course "Intro to Ethical Hacking" "penetration testing basics"
    CATEGORIES = "cybersecurity".
Proof. reflexivity. Qed.

(** The blob has one space between title and description, so a keyword
    does not match across the boundary: "se" + "o" is not "seo". *)
Example categorize_boundary_space :
  categorize_course "se" "o" CATEGORIES = "personal_development".
Proof. reflexivity. Qed.

End categorizer.

(** ** Message composer *)

Section composer.
Import Config Utils Main.

Lemma format_message_template_raises (kwargs : gmap string Py.value) :
  kwargs !! "category" = None →
  Py.format MESSAGE_TEMPLATE kwargs = inl (Py.KeyError "category").
Proof.
  intros Hno. unfold Py.format, MESSAGE_TEMPLATE. cbn -[lookup].
  match goal with
  | |- context [Py.field_value kwargs ?name] =>
      change name with "category"
  end.
  unfold Py.field_value at 1. cbn -[lookup]. by rewrite Hno.
Qed.

(** C4. [format_whatsapp_message] formats each course with the template it
    is given, and [process_and_send_courses] gives it [MESSAGE_TEMPLATE],
    whose first field is [category]: for every non-empty list of course
    dicts the first turn of the loop raises a [KeyError] and no text is
    returned.  For the dicts [parse_course_element] builds the key is
    [category], raised by the per-course [format]. *)
Theorem format_whatsapp_message_raises :
  (∀ (course : gmap string Py.value) rest name,
     format_whatsapp_message (course :: rest) name MESSAGE_TEMPLATE
     = inl (Py.KeyError
              (match course !! "title", course !! "url" with
               | None, _ => "title"
               | Some _, None => "url"
               | Some _, Some _ => "category"
               end))) ∧
  (∀ (c : course) (rest : list course) name,
     format_whatsapp_message (as_dict <$> c :: rest) name MESSAGE_TEMPLATE
     = inl (Py.KeyError "category")).
Proof.
  assert (∀ (course : gmap string Py.value) rest name,
     format_whatsapp_message (course :: rest) name MESSAGE_TEMPLATE
     = inl (Py.KeyError
              (match course !! "title", course !! "url" with
               | None, _ => "title"
               | Some _, None => "url"
               | Some _, Some _ => "category"
               end))) as Hany.
  { intros course rest name.
    unfold format_whatsapp_message. cbn [format_courses]. unfold course_text.
    unfold Py.subscript.
    destruct (course !! "title") as [title|]; [|done].
    destruct (course !! "url") as [url|]; [|done].
    cbn [mbind Py.exn_bind].
    by rewrite format_message_template_raises. }
  split; [exact Hany|].
  intros c rest name. rewrite fmap_cons, Hany. reflexivity.
Qed.

(** With no course the loop does not run and only the frame is rendered. *)
Example format_whatsapp_message_empty :
  format_whatsapp_message [] "web_design" MESSAGE_TEMPLATE
  = inr "🎓 *New Web Design Courses*



🔍 More deals at: real.discount".
Proof. reflexivity. Qed.

(** [COURSE_TEMPLATE], which has the per-course fields, is not used by any
    function; given as the template it formats the courses and then fails
    on the frame. *)
Example format_whatsapp_message_course_template (c : course) :
  format_whatsapp_message [as_dict c] "web_design" COURSE_TEMPLATE
  = inl (Py.KeyError "title").
Proof.
  unfold format_whatsapp_message, format_courses, course_text.
  destruct c as [t de u uu p cc ex ca]. destruct uu, cc, ex; reflexivity.
Qed.

(** A course dict always has the keys [coupon_code] and [expiry_date], so
    [course.get(key, 'N/A')] never falls back to ['N/A']: an absent coupon
    code or expiry date is shown as [None]. *)
Example course_text_absent_fields :
  course_text COURSE_TEMPLATE
    (as_dict {| title := "T"; description := "D"; url := "https://u";
                udemy_url := None; original_price := "N/A";
                coupon_code := None; expiry_date := None; category := "other" |})
  = inr "
📚 *T*
💰 Original Price: N/A
🏷️ Coupon: None
⏰ Expires: None
🔗 https://u
".
Proof. reflexivity. Qed.

(** The fault reaches the caller: when the first category with new courses
    has a group id, nothing is sent and the exception leaves
    [process_and_send_courses]. *)
Lemma send_all_raises ids name (c : course) cs groups gid :
  ids !! name = Some gid →
  send_all ids ((name, c :: cs) :: groups) = ([], Some (Py.KeyError "category")).
Proof. intros Hid. simpl. by rewrite Hid. Qed.

End composer.

(** ** Expiry normalization *)

Section expiry.
Import Utils.
















(** Case analysis on a digit bounded by two constants. *)
Ltac digit_cases_go k n :=
  lazymatch k with
  | 0 => exfalso; lia
  | S ?k' => destruct n as [|n]; [try (exfalso; lia) | digit_cases_go k' n]
  end.

Tactic Notation "digit_cases" ident(n) hyp(H) :=
  vm_compute in H; digit_cases_go 10 n.














Lemma strftime_long_date y m d : strftime_B_d_Y (y, m, d) = long_date y m d.
Proof. reflexivity. Qed.




Example parse_expiry_date_invalid_day :
  parse_expiry_date (Some "2025-02-30") = Some "2025-02-30".
Proof. reflexivity. Qed.

End expiry.

(** ** Cutting a text at a separator *)

Section cutting.
Implicit Types s sep a b : string.

Lemma find_first_eq sep s :
  Py.find_first sep s =
  if Py.startswith s sep
  then Some (EmptyString, Py.drop_chars (String.length sep) s)
  else match s with
       | EmptyString => None
       | String c s' =>
           match Py.find_first sep s' with
           | Some (before, after) => Some (String c before, after)
           | None => None
           end
       end.
Proof. by destruct s. Qed.

Lemma drop_chars_app a b : Py.drop_chars (String.length a) (a +:+ b) = b.
Proof. induction a as [|x a IH]; [by destruct b | done]. Qed.

Lemma startswith_drop s sep :
  Py.startswith s sep = true → s = sep +:+ Py.drop_chars (String.length sep) s.
Proof. intros [r ->]%startswith_spec. by rewrite drop_chars_app. Qed.

Lemma sapp_inj_length a a' b b' :
  a +:+ b = a' +:+ b' → String.length a = String.length a' → a = a' ∧ b = b'.
Proof.
  revert a'. induction a as [|x a IH]; intros [|x' a'] E Hl; try done.
  rewrite !sapp_cons in E. injection E as -> E. simpl in Hl.
  destruct (IH a' E) as [-> ->]; [lia | done].
Qed.

(** [find_first] cuts at an occurrence, and at the first one. *)
Lemma find_first_Some sep s a b :
  Py.find_first sep s = Some (a, b) →
  s = a +:+ sep +:+ b ∧
  ∀ a' b', s = a' +:+ sep +:+ b' → String.length a ≤ String.length a'.
Proof.
  revert a. induction s as [|c s IH]; intros a; rewrite find_first_eq.
  - destruct (Py.startswith EmptyString sep) eqn:Hs; [|done].
    apply startswith_drop in Hs. intros [= <- <-]. split; [done | simpl; lia].
  - destruct (Py.startswith (String c s) sep) eqn:Hs.
    + apply startswith_drop in Hs. intros [= <- <-]. split; [done | simpl; lia].
    + destruct (Py.find_first sep s) as [[a0 b0]|] eqn:E; [|done].
      intros [= <- <-]. destruct (IH a0 eq_refl) as [-> Hmin]. split; [done|].
      intros [|c' a'] b' E'.
      * assert (Py.startswith (String c (a0 +:+ sep +:+ b0)) sep = true) as Hs'
          by (apply startswith_spec; eauto).
        by rewrite Hs' in Hs.
      * rewrite !sapp_cons in E'. injection E' as -> E'.
        specialize (Hmin a' b' E'). simpl. lia.
Qed.

Lemma find_first_None sep s :
  Py.find_first sep s = None ↔ ¬ Substring sep s.
Proof.
  rewrite <- contains_false. induction s as [|c s IH]; rewrite find_first_eq; simpl.
  - by destruct (Py.startswith EmptyString sep).
  - destruct (Py.startswith (String c s) sep); [done|]. simpl.
    rewrite <- IH. by destruct (Py.find_first sep s) as [[? ?]|].
Qed.

Lemma find_first_shorter sep s a b :
  sep ≠ EmptyString → Py.find_first sep s = Some (a, b) →
  String.length b < String.length s.
Proof.
  intros Hsep [-> _]%find_first_Some. rewrite !sapp_length.
  destruct sep; [done | simpl; lia].
Qed.

(** The bound on the number of cuts does not matter once it reaches the
    length of the text. *)
Lemma split_at_enough sep n m s :
  sep ≠ EmptyString → String.length s ≤ n → String.length s ≤ m →
  Py.split_at n sep s = Py.split_at m sep s.
Proof.
  intros Hsep. revert m s. induction n as [|n IH]; intros m s Hn Hm.
  - destruct s; [|simpl in Hn; lia]. destruct m as [|m]; [done|].
    cbn [Py.split_at]. rewrite find_first_eq. by destruct sep.
  - destruct m as [|m].
    + destruct s; [|simpl in Hm; lia].
      cbn [Py.split_at]. rewrite find_first_eq. by destruct sep.
    + cbn [Py.split_at]. destruct (Py.find_first sep s) as [[a b]|] eqn:E; [|done].
      apply find_first_shorter in E; [|done]. f_equal. apply IH; lia.
Qed.

(** [s.split(sep)]: the text itself when [sep] does not occur in it, and
    otherwise the text before the first occurrence followed by the split of
    the text after it. *)
Lemma split_sep_eq s sep :
  sep ≠ EmptyString →
  Py.split_sep s sep =
  match Py.find_first sep s with
  | None => [s]
  | Some (a, b) => a :: Py.split_sep b sep
  end.
Proof.
  intros Hsep. unfold Py.split_sep. destruct s as [|c s].
  - cbn [Py.split_at String.length]. rewrite find_first_eq. by destruct sep.
  - change (String.length (String c s)) with (S (String.length s)).
    cbn [Py.split_at].
    destruct (Py.find_first sep (String c s)) as [[a b]|] eqn:E; [|done].
    apply find_first_shorter in E; [|done]. f_equal.
    apply split_at_enough; [done| simpl in E; lia | done].
Qed.

(** The first piece of a split: the text up to the first occurrence of the
    separator, or all of it. *)
Lemma split_sep_head s sep :
  sep ≠ EmptyString →
  ∃ piece pieces rest,
    Py.split_sep s sep = piece :: pieces ∧ s = piece +:+ rest ∧
    ¬ Substring sep piece ∧ (rest = EmptyString ∨ ∃ r, rest = sep +:+ r).
Proof.
  intros Hsep. rewrite split_sep_eq by done.
  destruct (Py.find_first sep s) as [[a b]|] eqn:E.
  - apply find_first_Some in E as [-> Hmin].
    exists a, (Py.split_sep b sep), (sep +:+ b). split_and!; [done..| |eauto].
    intros (x & y & ->).
    specialize (Hmin x (y +:+ sep +:+ b)). rewrite !sapp_assoc in Hmin.
    specialize (Hmin eq_refl). rewrite !sapp_length in Hmin.
    destruct sep; [done | simpl in Hmin; lia].
  - apply find_first_None in E. exists s, [], EmptyString.
    split_and!; [done | by rewrite sapp_nil_r | done | by left].
Qed.

Lemma substring_prefix kw a b : Substring kw a → Substring kw (a +:+ b).
Proof.
  intros (x & y & ->). exists x, (y +:+ b). by rewrite !sapp_assoc.
Qed.

End cutting.

(** ** Access code *)

Section access_code.
Import Main.


Lemma coupon_param_nonempty : coupon_param ≠ EmptyString.
Proof. done. Qed.

(** The extraction never raises: the index [1] exists because the
    parameter text occurs in the URL. *)
Lemma extract_coupon_code_eq url :
  extract_coupon_code (Some url) =
  inr (match Py.find_first coupon_param url with
       | None => None
       | Some (_, after) =>
           head (Py.split_sep after coupon_param) ≫= fun piece =>
           head (Py.split_sep piece "&")
       end).
Proof.
  unfold extract_coupon_code.
  destruct (Py.find_first coupon_param url) as [[a b]|] eqn:E.
  - assert (Py.contains coupon_param url = true) as ->.
    { apply contains_spec. apply find_first_Some in E as [-> _]. by exists a, b. }
    assert (truthy url = true) as ->.
    { apply find_first_Some in E as [-> _]. by destruct a. }
    rewrite (split_sep_eq url) by done. rewrite E. cbn [index lookup list_lookup].
    destruct (split_sep_head b coupon_param) as (p1 & ps1 & r1 & -> & _); [done|].
    destruct (split_sep_head p1 "&") as (p2 & ps2 & r2 & E2 & _); [done|].
    cbn. by rewrite E2.
  - apply find_first_None, contains_false in E. rewrite E.
    by destruct (truthy url).
Qed.

(** C6, as the code has it.  The access code is present exactly when the
    URL contains the literal text [couponCode=], wherever that is; it is
    then the text that follows the first occurrence, up to the next
    ampersand, the next [couponCode=] or the end of the URL. *)
Theorem extract_coupon_code_spec url :
  (¬ Substring coupon_param url → extract_coupon_code (Some url) = inr None) ∧
  (∀ before after,
     url = before +:+ coupon_param +:+ after →
     (∀ before' after', url = before' +:+ coupon_param +:+ after' →
        String.length before ≤ String.length before') →
     ∃ code rest,
       extract_coupon_code (Some url) = inr (Some code) ∧
       after = code +:+ rest ∧
       ¬ Substring "&" code ∧ ¬ Substring coupon_param code ∧
       (rest = EmptyString ∨ (∃ r, rest = "&" +:+ r) ∨
        (∃ r, rest = coupon_param +:+ r))).
Proof.
  rewrite extract_coupon_code_eq. split.
  - intros Hno. apply find_first_None in Hno. by rewrite Hno.
  - intros before after -> Hfirst.
    destruct (Py.find_first coupon_param (before +:+ coupon_param +:+ after))
      as [[a b]|] eqn:E.
    2: { apply find_first_None in E. destruct E. by exists before, after. }
    apply find_first_Some in E as [E Hmin].
    assert (String.length before = String.length a) as Hlen.
    { apply Nat.le_antisymm; [apply (Hfirst a b E) | apply (Hmin before after eq_refl)]. }
    apply sapp_inj_length in E as [-> E]; [|done].
    apply (inj (String.app coupon_param)) in E as ->.
    destruct (split_sep_head b coupon_param) as (p1 & ps1 & r1 & -> & -> & Hp1 & Hr1);
      [done|].
    destruct (split_sep_head p1 "&") as (p2 & ps2 & r2 & E2 & -> & Hp2 & Hr2);
      [done|].
    cbn. rewrite E2. cbn. exists p2, (r2 +:+ r1).
    split_and!; [done | by rewrite sapp_assoc | done | |].
    + intros Hsub. by apply Hp1, substring_prefix.
    + destruct Hr2 as [-> | [r ->]].
      * destruct Hr1 as [-> | [r ->]]; [by left | right; right; by exists r].
      * right; left. exists (r +:+ r1). by rewrite sapp_assoc.
Qed.

Lemma extract_coupon_code_spec_witness :
  (∃ code rest,
     extract_coupon_code
       (Some "https://www.udemy.com/course/python/?couponCode=FREE2025&utm=x")
     = inr (Some code) ∧
     "FREE2025&utm=x" = code +:+ rest ∧
     ¬ Substring "&" code ∧ ¬ Substring coupon_param code ∧
     (rest = EmptyString ∨ (∃ r, rest = "&" +:+ r) ∨
      (∃ r, rest = coupon_param +:+ r))) ∧
  extract_coupon_code (Some "https://www.udemy.com/course/python/") = inr None.
Proof.
  split.
  - apply (proj2 (extract_coupon_code_spec
             "https://www.udemy.com/course/python/?couponCode=FREE2025&utm=x")
             "https://www.udemy.com/course/python/?" "FREE2025&utm=x" eq_refl).
    apply (find_first_Some coupon_param
             "https://www.udemy.com/course/python/?couponCode=FREE2025&utm=x"
             "https://www.udemy.com/course/python/?" "FREE2025&utm=x").
    reflexivity.
  - apply extract_coupon_code_spec. apply contains_false. reflexivity.
Defined.

(** The example of the specification. *)
Example extract_coupon_code_free2025 :
  extract_coupon_code
    (Some "https://www.udemy.com/course/python/?couponCode=FREE2025&utm=x")
  = inr (Some "FREE2025").
Proof. reflexivity. Qed.

(** A second [couponCode=] ends the code like an ampersand does. *)
Example extract_coupon_code_twice :
  extract_coupon_code (Some "https://www.udemy.com/?couponCode=ABcouponCode=Z")
  = inr (Some "AB").
Proof. reflexivity. Qed.

(** The claim as stated fails: the text [couponCode=] is looked for
    anywhere in the URL, so a URL with no query parameter named
    [couponCode] can still yield an access code. *)
Lemma extract_coupon_code_not_a_parameter :
  query_parameter "couponCode"
    "https://www.udemy.com/course/python/?discouponCode=ABC" = None ∧
  extract_coupon_code
    (Some "https://www.udemy.com/course/python/?discouponCode=ABC")
  = inr (Some "ABC").
Proof. split; reflexivity. Qed.

End access_code.

(** ** Field extraction and detail resolution *)

Section resolution.
Import Main.
Context {world : Type} (navigate : world → string → world * outcome).

Lemma extract_coupon_code_None : extract_coupon_code None = inr None.
Proof. reflexivity. Qed.


Lemma extract_coupon_code_total udemy :
  ∃ code, extract_coupon_code udemy = inr code.
Proof.
  destruct udemy as [u|]; [|by exists None].
  rewrite extract_coupon_code_eq. eauto.
Qed.

(** A listing with a heading and a usable link always yields a course,
    whatever happens on the coupon page. *)
Lemma parse_course_element_usable d element heading href detail :
  find_heading element = Some heading →
  find_a element = Some href →
  coupon_url_of href = Some detail →
  ∃ c,
    parse_course_element navigate d element
    = ((visit_coupon_page navigate d detail).1.1, Some c) ∧
    url c = match (visit_coupon_page navigate d detail).2 with
            | Some u => if truthy u then u else (visit_coupon_page navigate d detail).1.2
            | None => (visit_coupon_page navigate d detail).1.2
            end ∧
    udemy_url c = (visit_coupon_page navigate d detail).2 ∧
    extract_coupon_code (udemy_url c) = inr (coupon_code c).
Proof.
  intros Hh Ha Hc. unfold parse_course_element. rewrite Hh, Ha, Hc.
  destruct (visit_coupon_page navigate d detail) as [[d' coupon_url] udemy].
  destruct (extract_coupon_code_total udemy) as [code Hcode]. rewrite Hcode.
  eexists. split; [reflexivity|]. by simpl.
Qed.

(** C7, as the code has it.  For a listing with a heading and a usable
    link: when loading the detail URL fails with a message that contains
    [ERR_NAME_NOT_RESOLVED], exactly one more request is made, for the
    detail URL with every [real.discount] replaced by [www.real.discount],
    and when that request does not render a page the course is returned
    with the rewritten URL as its URL and no Udemy URL or access code; when
    loading the detail URL fails in any other way no further request is
    made and the course is returned with the detail URL as its URL and no
    Udemy URL or access code.  In every case the loop of the scrape pass
    goes on with the listings that follow. *)
Theorem detail_failure_degrades d element heading href detail w1 o1 :
  find_heading element = Some heading →
  find_a element = Some href →
  coupon_url_of href = Some detail →
  navigate (net d) detail = (w1, o1) →
  (∀ msg w2 o2,
     o1 = NavigationError msg → Substring "ERR_NAME_NOT_RESOLVED" msg →
     navigate w1 (Py.replace detail "real.discount" "www.real.discount") = (w2, o2) →
     ∃ c,
       parse_course_element navigate d element
       = ({| net := w2;
             requests := requests d ++
               [detail; Py.replace detail "real.discount" "www.real.discount"] |},
          Some c) ∧
       ((∀ doc, o2 ≠ Rendered doc) →
        degraded c (Py.replace detail "real.discount" "www.real.discount"))) ∧
  (∀ msg,
     (o1 = NavigationError msg ∧ ¬ Substring "ERR_NAME_NOT_RESOLVED" msg) ∨
     o1 = PageError msg →
     ∃ c,
       parse_course_element navigate d element
       = ({| net := w1; requests := requests d ++ [detail] |}, Some c) ∧
       degraded c detail) ∧
  (∀ now rest cache courses,
     ∃ d' c,
       parse_course_element navigate d element = (d', Some c) ∧
       scrape_loop navigate now (element :: rest) d cache courses
       = if bool_decide (url c ∉ dom cache)
         then scrape_loop navigate now rest d'
                (<[url c := now (net d')]> cache) (courses ++ [c])
         else scrape_loop navigate now rest d' cache courses).
Proof.
  intros Hh Ha Hc Hnav.
  destruct (parse_course_element_usable d element heading href detail Hh Ha Hc)
    as (c & Hparse & Hurl & Hudemy & Hcode).
  split_and!.
  - intros msg w2 o2 -> Hdns%contains_spec Hretry. exists c.
    revert Hparse Hurl Hudemy. unfold visit_coupon_page, driver_get.
    rewrite Hnav, Hdns. simpl net. rewrite Hretry. simpl requests.
    rewrite <- (assoc_L (++)). simpl app.
    destruct o2 as [msg2|msg2|doc]; simpl; intros Hparse Hurl Hudemy;
      (split; [done|]); intros Hno.
    + rewrite Hudemy in Hcode. injection Hcode as Hcc. by split_and!.
    + rewrite Hudemy in Hcode. injection Hcode as Hcc. by split_and!.
    + by destruct (Hno doc).
  - intros msg Hfail. exists c.
    revert Hparse Hurl Hudemy. unfold visit_coupon_page, driver_get.
    rewrite Hnav.
    destruct Hfail as [[-> Hnodns%contains_false] | ->]; [rewrite Hnodns|];
      simpl; intros Hparse Hurl Hudemy;
      (split; [done|]); rewrite Hudemy in Hcode; injection Hcode as Hcc;
      by split_and!.
  - intros now rest cache courses. eexists _, c. split; [exact Hparse|].
    cbn [scrape_loop]. rewrite Ha, Hh, Hparse.
    rewrite !bool_decide_eq_true_2 by eauto. done.
Qed.

End resolution.



(** In the other direction, a relative path that happens to start with the
    letters [http] is left as it is. *)
Example coupon_url_of_relative_http :
  starts_with_scheme "http-basics/course" = false ∧
  Main.coupon_url_of (Some "http-basics/course") = Some "http-basics/course".
Proof. split; reflexivity. Qed.

Lemma detail_failure_degrades_witness :
  ∃ c,
    Main.parse_course_element Demo.navigate Demo.fresh Demo.unreachable
    = ({| Main.net := 2;
          Main.requests := ["https://real.discount/go/dns";
                            "https://www.real.discount/go/dns"] |}, Some c) ∧
    degraded c "https://www.real.discount/go/dns".
Proof.
  destruct (proj1 (detail_failure_degrades Demo.navigate Demo.fresh Demo.unreachable
              "Python for Beginners" (Some "/go/dns") "https://real.discount/go/dns"
              1 (Main.NavigationError "unknown error: net::ERR_NAME_NOT_RESOLVED")
              eq_refl eq_refl eq_refl eq_refl)
            "unknown error: net::ERR_NAME_NOT_RESOLVED" 2
            (Main.NavigationError "unknown error: net::ERR_NAME_NOT_RESOLVED")
            eq_refl
            ltac:(by exists "unknown error: net::", EmptyString)
            eq_refl) as (c & Hparse & Hdeg).
  exists c. split; [exact Hparse|]. apply Hdeg. intros doc. discriminate.
Defined.

(** The claim as stated fails: after a DNS failure the variable holding the
    detail URL is overwritten with the rewritten URL, so when the retry
    fails too the course falls back to the rewritten URL, not to the
    detail URL of the listing. *)
Lemma detail_fallback_is_rewritten :
  Main.coupon_url_of (Some "/go/dns") = Some "https://real.discount/go/dns" ∧
  ∃ d c,
    Main.parse_course_element Demo.navigate Demo.fresh Demo.unreachable = (d, Some c) ∧
    Main.url c = "https://www.real.discount/go/dns" ∧
    ¬ degraded c "https://real.discount/go/dns".
Proof.
  split; [reflexivity|]. eexists _, _. split; [reflexivity|].
  split; [reflexivity|]. intros [Hurl _]. discriminate Hurl.
Qed.

(** The rewriting replaces the text wherever it occurs: a detail URL that
    is already on the [www] host is retried on [www.www]. *)
Example replace_www :
  Py.replace "https://www.real.discount/go/abc" "real.discount" "www.real.discount"
  = "https://www.www.real.discount/go/abc".
Proof. reflexivity. Qed.

(** ** The scrape pass and the dedupe cache *)

Section scrape_pass.
Import Utils Main.
Context {world : Type} (navigate : world → string → world * outcome)
        (now : world → string).

(** The loop of [scrape_courses] appends to [courses] the parsed courses
    whose URL is seen for the first time, and adds the URL of every parsed
    course to the cache. *)
Lemma scrape_loop_first_seen elements d (cache : gmap string string) courses :
  ∃ d' (cache' : gmap string string),
    scrape_loop navigate now elements d cache courses
    = (d', cache', courses ++ first_seen (dom cache) (parsed_courses navigate elements d)) ∧
    dom cache' = dom cache ∪ list_to_set (url <$> parsed_courses navigate elements d).
Proof.
  revert d cache courses.
  induction elements as [|element rest IH]; intros d cache courses.
  - exists d, cache. simpl. split; [by rewrite app_nil_r | set_solver].
  - cbn [scrape_loop parsed_courses].
    destruct (bool_decide (is_Some (find_a element)) &&
              bool_decide (is_Some (find_heading element))); [|apply IH].
    destruct (parse_course_element navigate d element) as [d1 [c|]]; [|apply IH].
    cbn [first_seen fmap list_fmap list_to_set foldr].
    destruct (decide (url c ∈ dom cache)) as [Hin|Hout].
    + rewrite bool_decide_eq_false_2 by (by intros ?).
      rewrite (bool_decide_eq_true_2 (url c ∈ dom cache)) by done.
      destruct (IH d1 cache courses) as (d' & cache' & -> & Hdom).
      exists d', cache'. split; [done|]. set_solver.
    + rewrite bool_decide_eq_true_2 by done.
      rewrite (bool_decide_eq_false_2 (url c ∈ dom cache)) by done.
      destruct (IH d1 (<[url c := now (net d1)]> cache) (courses ++ [c]))
        as (d' & cache' & -> & Hdom).
      exists d', cache'. rewrite dom_insert_L in *.
      split; [by rewrite <- (assoc_L (++)) | set_solver].
Qed.

Lemma first_seen_spec seen (l : list course) :
  NoDup (url <$> first_seen seen l) ∧
  (∀ c, c ∈ first_seen seen l → url c ∉ seen) ∧
  (∀ c, c ∈ l → url c ∉ seen → url c ∈ url <$> first_seen seen l) ∧
  (∀ c, c ∈ first_seen seen l →
     ∃ pre post, l = pre ++ c :: post ∧ url c ∉ url <$> pre).
Proof.
  revert seen. induction l as [|x l IH]; intros seen.
  - simpl. split_and!; [constructor | set_solver..].
  - cbn [first_seen]. destruct (decide (url x ∈ seen)) as [Hin|Hout].
    + rewrite bool_decide_eq_true_2 by done.
      destruct (IH seen) as (Hnd & Hnew & Hall & Hfirst). split_and!; [done..| |].
      * intros c [->|Hc]%elem_of_cons Hc'; [done | by apply Hall].
      * intros c Hc. destruct (Hfirst c Hc) as (pre & post & -> & Hpre).
        exists (x :: pre), post. split; [done|].
        rewrite fmap_cons, not_elem_of_cons. split; [|done].
        intros E. apply (Hnew c Hc). by rewrite E.
    + rewrite bool_decide_eq_false_2 by done.
      destruct (IH ({[url x]} ∪ seen)) as (Hnd & Hnew & Hall & Hfirst).
      split_and!.
      * rewrite fmap_cons. constructor; [|done].
        intros (c & E & Hc)%list_elem_of_fmap. apply (Hnew c Hc). set_solver.
      * intros c [->|Hc]%elem_of_cons; [done|]. specialize (Hnew c Hc). set_solver.
      * intros c [->|Hc]%elem_of_cons Hc'; rewrite fmap_cons; [by left|].
        destruct (decide (url c = url x)) as [->|Hne]; [by left|].
        right. apply Hall; [done | set_solver].
      * intros c [->|Hc]%elem_of_cons.
        -- exists [], l. split; [done | set_solver].
        -- destruct (Hfirst c Hc) as (pre & post & -> & Hpre).
           exists (x :: pre), post. split; [done|].
           rewrite fmap_cons, not_elem_of_cons. split; [|done].
           intros E. apply (Hnew c Hc). set_solver.
Qed.

(** C10. Within one scrape pass the returned courses have pairwise
    different URLs, none of them in the cache the pass started with; every
    parsed course whose URL was not in that cache has its URL among them;
    and each returned course is the first parsed course, in page order,
    with its URL. *)
Theorem scrape_courses_emits_once self file w soup :
  navigate (net (driver_of self)) Config.BASE_URL = (w, Rendered soup) →
  let parsed :=
    parsed_courses navigate (find_all_li soup)
      {| net := w; requests := requests (driver_of self) ++ [Config.BASE_URL] |} in
  let courses := (scrape_courses navigate now self file).2 in
  NoDup (url <$> courses) ∧
  (∀ c, c ∈ courses → url c ∉ dom (cache self)) ∧
  (∀ c, c ∈ parsed → url c ∉ dom (cache self) → url c ∈ url <$> courses) ∧
  (∀ c, c ∈ courses →
     ∃ pre post, parsed = pre ++ c :: post ∧ url c ∉ url <$> pre).
Proof.
  intros Hget. unfold scrape_courses, driver_get. rewrite Hget.
  destruct (scrape_loop_first_seen (find_all_li soup)
              {| net := w; requests := requests (driver_of self) ++ [Config.BASE_URL] |}
              (cache self) []) as (d' & cache' & -> & _).
  apply first_seen_spec.
Qed.

(** *** Idempotence *)

Section stable_site.
(** The site renders the same for a URL whenever it is asked. *)
Hypothesis stable : ∀ w w' u, (navigate w u).2 = (navigate w' u).2.

Lemma visit_coupon_page_stable d d' u :
  (visit_coupon_page navigate d u).1.2 = (visit_coupon_page navigate d' u).1.2 ∧
  (visit_coupon_page navigate d u).2 = (visit_coupon_page navigate d' u).2.
Proof.
  unfold visit_coupon_page, driver_get.
  pose proof (stable (net d) (net d') u) as H1.
  destruct (navigate (net d) u) as [w1 o1], (navigate (net d') u) as [w1' o1'].
  simpl in H1. subst o1'. destruct o1 as [msg|msg|doc]; [|done..].
  destruct (Py.contains "ERR_NAME_NOT_RESOLVED" msg); [|done]. simpl.
  pose proof (stable w1 w1'
                (Py.replace u "real.discount" "www.real.discount")) as H2.
  destruct (navigate w1 _) as [w2 o2], (navigate w1' _) as [w2' o2'].
  simpl in H2. subst o2'. by destruct o2.
Qed.

Lemma parse_course_element_stable d d' element :
  (parse_course_element navigate d element).2
  = (parse_course_element navigate d' element).2.
Proof.
  unfold parse_course_element.
  destruct (find_heading element); [|done]. destruct (find_a element); [|done].
  destruct (coupon_url_of _) as [u|]; [|done].
  destruct (visit_coupon_page_stable d d' u) as [H1 H2].
  destruct (visit_coupon_page navigate d u) as [[d1 u1] r1],
           (visit_coupon_page navigate d' u) as [[d1' u1'] r1'].
  simpl in H1, H2. subst. by destruct (extract_coupon_code r1').
Qed.

Lemma parsed_courses_stable elements d d' :
  parsed_courses navigate elements d = parsed_courses navigate elements d'.
Proof.
  revert d d'. induction elements as [|element rest IH]; intros d d'; [done|].
  cbn [parsed_courses].
  destruct (bool_decide _ && bool_decide _); [|apply IH].
  pose proof (parse_course_element_stable d d' element) as H.
  destruct (parse_course_element navigate d element) as [d1 r1],
           (parse_course_element navigate d' element) as [d1' r1'].
  simpl in H. subst r1'. destruct r1; [f_equal|]; apply IH.
Qed.

Lemma first_seen_all_seen seen (l : list course) :
  (∀ c, c ∈ l → url c ∈ seen) → first_seen seen l = [].
Proof.
  induction l as [|x l IH]; intros Hall; [done|]. cbn [first_seen].
  rewrite bool_decide_eq_true_2 by (apply Hall; left).
  apply IH. intros c Hc. apply Hall. by right.
Qed.

(** C8. When the site renders the same both times and the second pass
    starts from a cache that holds what the first pass saved, the second
    pass returns no course. *)
Theorem scrape_twice_nothing_new self file self2 :
  dom (load_cache (scrape_courses navigate now self file).1.2) ⊆ dom (cache self2) →
  (scrape_courses navigate now self2
     (scrape_courses navigate now self file).1.2).2 = [].
Proof.
  unfold scrape_courses, driver_get.
  pose proof (stable (net (driver_of self)) (net (driver_of self2)) Config.BASE_URL)
    as Hsame.
  destruct (navigate (net (driver_of self)) Config.BASE_URL) as [w1 o1],
           (navigate (net (driver_of self2)) Config.BASE_URL) as [w2 o2].
  simpl in Hsame. subst o2. destruct o1 as [msg|msg|soup]; [done..|].
  destruct (scrape_loop_first_seen (find_all_li soup)
              {| net := w1; requests := requests (driver_of self) ++ [Config.BASE_URL] |}
              (cache self) []) as (d1 & cache1 & -> & Hdom1).
  destruct (scrape_loop_first_seen (find_all_li soup)
              {| net := w2; requests := requests (driver_of self2) ++ [Config.BASE_URL] |}
              (cache self2) []) as (d2 & cache2 & -> & _).
  simpl. intros Hsub. apply first_seen_all_seen. intros c Hc.
  apply Hsub. rewrite Hdom1. apply elem_of_union_r, elem_of_list_to_set.
  apply list_elem_of_fmap. exists c. split; [done|].
  by rewrite (parsed_courses_stable _ _
                {| net := w2; requests := requests (driver_of self2) ++ [Config.BASE_URL] |}).
Qed.

End stable_site.

(** *** Monotone growth of the cache *)

Lemma scrape_loop_cache_grows elements d (cache : gmap string string) courses :
  dom cache ⊆ dom (scrape_loop navigate now elements d cache courses).1.2.
Proof.
  destruct (scrape_loop_first_seen elements d cache courses)
    as (d' & cache' & -> & Hdom).
  simpl. rewrite Hdom. set_solver.
Qed.

Lemma scrape_courses_cache_grows self file :
  dom (cache self) ⊆ dom (cache (scrape_courses navigate now self file).1.1).
Proof.
  unfold scrape_courses.
  destruct (driver_get navigate (driver_of self) Config.BASE_URL) as [d [msg|msg|soup]];
    [done..|].
  pose proof (scrape_loop_cache_grows (find_all_li soup) d (cache self) []) as H.
  by destruct (scrape_loop navigate now (find_all_li soup) d (cache self) [])
    as [[d' cache'] courses].
Qed.

(** After a pass the file is as before, or holds the cache of the
    scraper. *)
Lemma scrape_courses_file self file :
  (scrape_courses navigate now self file).1.2 = file ∧
  cache (scrape_courses navigate now self file).1.1 = cache self
  ∨ (scrape_courses navigate now self file).1.2
    = Some (cache (scrape_courses navigate now self file).1.1).
Proof.
  unfold scrape_courses.
  destruct (driver_get navigate (driver_of self) Config.BASE_URL) as [d [msg|msg|soup]];
    [by left..|].
  destruct (scrape_loop navigate now (find_all_li soup) d (cache self) [])
    as [[d' cache'] courses].
  by right.
Qed.

Lemma step_in_step sys ev :
  in_step sys →
  in_step (step navigate now sys ev) ∧
  dom (cache (running sys)) ⊆ dom (cache (running (step navigate now sys ev))).
Proof.
  unfold in_step. intros Hinv. destruct ev as [w getenv|]; simpl.
  - split; [done|]. by rewrite Hinv.
  - pose proof (scrape_courses_cache_grows (running sys) (file_of sys)) as Hgrow.
    pose proof (scrape_courses_file (running sys) (file_of sys)) as Hfile.
    destruct (scrape_courses navigate now (running sys) (file_of sys))
      as [[self' file'] courses].
    simpl in *. split; [|done].
    destruct Hfile as [[-> ->] | ->]; done.
Qed.

Lemma run_in_step sys events :
  in_step sys →
  in_step (run navigate now sys events) ∧
  dom (cache (running sys)) ⊆ dom (cache (running (run navigate now sys events))).
Proof.
  revert sys. induction events as [|ev events IH]; intros sys Hinv; [done|].
  destruct (step_in_step sys ev Hinv) as [Hinv' Hsub].
  destruct (IH _ Hinv') as [Hinv'' Hsub'].
  split; [done|]. unfold run in *. simpl. set_solver.
Qed.

(** C1. No operation removes a key of the dedupe cache: a URL that is a
    key stays a key when a URL is recorded and after a scrape pass, and,
    from any state in which the running scraper's cache is what the file
    holds (as it is once the program has started), a URL that is a key of
    the cache file is still a key of the file and of the running scraper's
    cache after any sequence of program starts and scrape passes. *)
Theorem cache_keys_only_grow (u : string) :
  (∀ (c : gmap string string) k t, u ∈ dom c → u ∈ dom (<[k := t]> c)) ∧
  (∀ self file,
     u ∈ dom (cache self) →
     u ∈ dom (cache (scrape_courses navigate now self file).1.1)) ∧
  (∀ sys events,
     cache (running sys) = load_cache (file_of sys) →
     u ∈ dom (load_cache (file_of sys)) →
     u ∈ dom (load_cache (file_of (run navigate now sys events))) ∧
     u ∈ dom (cache (running (run navigate now sys events)))).
Proof.
  split_and!.
  - intros c k t Hu. rewrite dom_insert_L. set_solver.
  - intros self file Hu. by apply scrape_courses_cache_grows.
  - intros sys events Hinv Hu.
    destruct (run_in_step sys events Hinv) as [Hinv' Hsub].
    unfold in_step in *. rewrite <- Hinv', <- Hinv in *. split; by apply Hsub.
Qed.

End scrape_pass.

(** *** The pass on the demonstration site *)

Lemma demo_stable w w' u : (Demo.navigate w u).2 = (Demo.navigate w' u).2.
Proof. reflexivity. Qed.

Lemma scrape_courses_emits_once_witness :
  NoDup (Main.url <$>
           (Main.scrape_courses Demo.navigate Demo.now
              (Main.init 0 Demo.getenv None) None).2).
Proof.
  apply (scrape_courses_emits_once Demo.navigate Demo.now
           (Main.init 0 Demo.getenv None) None 1 Demo.listing eq_refl).
Defined.

(** The two listings of the same Udemy course give one entry, the first. *)
Example demo_pass_courses :
  (fun c => (Main.title c, Main.url c)) <$>
    (Main.scrape_courses Demo.navigate Demo.now (Main.init 0 Demo.getenv None) None).2
  = [("Intro to Ethical Hacking", Demo.udemy);
     ("Python for Beginners", "https://www.real.discount/go/dns")].
Proof. vm_compute. reflexivity. Qed.

Lemma scrape_twice_nothing_new_witness :
  (Main.scrape_courses Demo.navigate Demo.now
     (Main.init 5 Demo.getenv
        (Main.scrape_courses Demo.navigate Demo.now
           (Main.init 0 Demo.getenv None) None).1.2)
     (Main.scrape_courses Demo.navigate Demo.now
        (Main.init 0 Demo.getenv None) None).1.2).2 = [].
Proof.
  apply (scrape_twice_nothing_new Demo.navigate Demo.now demo_stable
           (Main.init 0 Demo.getenv None) None).
  reflexivity.
Defined.

Lemma cache_keys_only_grow_witness :
  "https://www.udemy.com/course/old/"
    ∈ dom (Utils.load_cache (Main.file_of
             (Main.run Demo.navigate Demo.now Demo.started
                [Main.Pass; Main.Start 7 Demo.getenv; Main.Pass]))) ∧
  "https://www.udemy.com/course/old/"
    ∈ dom (Main.cache (Main.running
             (Main.run Demo.navigate Demo.now Demo.started
                [Main.Pass; Main.Start 7 Demo.getenv; Main.Pass]))).
Proof.
  apply (proj2 (proj2 (cache_keys_only_grow Demo.navigate Demo.now
                         "https://www.udemy.com/course/old/")) Demo.started).
  - reflexivity.
  - apply elem_of_dom. eexists. reflexivity.
Defined.

(** On the demonstration site the first category with new courses has a
    group id, so the pass is followed by the fault of the composer and no
    message is sent. *)
Example demo_process_raises :
  (Main.process_and_send_courses Demo.navigate Demo.now
     (Main.init 0 Demo.getenv None) None).2
  = ([], Some (Py.KeyError "category")).
Proof. vm_compute. reflexivity. Qed.

Example demo_run_file :
  dom (Utils.load_cache (Main.file_of
         (Main.run Demo.navigate Demo.now
            {| Main.running := Main.init 0 Demo.getenv None; Main.file_of := None |}
            [Main.Pass; Main.Start 7 Demo.getenv; Main.Pass])))
  = {[ Demo.udemy; "https://www.real.discount/go/dns" ]}.
Proof. vm_compute. reflexivity. Qed.

(* ===================================================================== *)
(** * Further properties of the code                                      *)
(* ===================================================================== *)

(** ** Categorizer: range, letter case, degenerate rules and blank text *)

Section categorizer_more.
Import Config Utils.














(** *** Blank text *)









End categorizer_more.

(** ** Message composer: what a template can and cannot do *)

Section composer_more.
Import Config Utils Main.

Lemma emit_inr text r s : Py.emit text r = inr s → ∃ s', r = inr s' ∧ s = text +:+ s'.
Proof. destruct r as [e|s']; simpl; [done|]. intros [= <-]. eauto. Qed.

Lemma field_value_inr kwargs name v :
  Py.field_value kwargs name = inr v → is_Some (kwargs !! name).
Proof.
  unfold Py.field_value. destruct (Py.all_digits name); [done|].
  destruct (kwargs !! name); [eauto | done].
Qed.

(** A template that formats under two sets of keyword arguments with no
    name in common has no replacement field at all, and formats the same
    with no argument. *)
Lemma format_scan_disjoint (kw1 kw2 : gmap string Py.value) st s x y :
  (∀ k, kw1 !! k = None ∨ kw2 !! k = None) →
  Py.format_scan kw1 st s = inr x →
  Py.format_scan kw2 st s = inr y →
  Py.format_scan ∅ st s = inr y.
Proof.
  intros Hdisj. revert st x y.
  induction s as [|c s IH]; intros st x y; [by destruct st|].
  destruct st as [| |name|]; cbn [Py.format_scan].
  - destruct (Ascii.eqb c "{"); [apply IH|].
    destruct (Ascii.eqb c "}"); [apply IH|].
    intros (x' & H1 & _)%emit_inr (y' & H2 & ->)%emit_inr.
    by rewrite (IH _ _ _ H1 H2).
  - destruct (Ascii.eqb c "{").
    { intros (x' & H1 & _)%emit_inr (y' & H2 & ->)%emit_inr.
      by rewrite (IH _ _ _ H1 H2). }
    destruct (Ascii.eqb c "}"); [done|].
    destruct (Py.field_char c); [apply IH | done].
  - destruct (Ascii.eqb c "}").
    + destruct (Py.field_value kw1 name) as [|v1] eqn:E1; [done|].
      destruct (Py.field_value kw2 name) as [|v2] eqn:E2; [done|].
      apply field_value_inr in E1 as [? E1], E2 as [? E2].
      destruct (Hdisj name) as [E|E]; congruence.
    + destruct (Py.field_char c); [apply IH | done].
  - destruct (Ascii.eqb c "}"); [|done].
    intros (x' & H1 & _)%emit_inr (y' & H2 & ->)%emit_inr.
    by rewrite (IH _ _ _ H1 H2).
Qed.

Lemma frame_kwargs_disjoint (v1 v2 v3 v4 v5 w1 w2 : Py.value) k :
  (list_to_map [("title", v1); ("original_price", v2); ("coupon_code", v3);
                ("expiry_date", v4); ("url", v5)] : gmap string Py.value) !! k = None ∨
  (list_to_map [("category", w1); ("courses", w2)] : gmap string Py.value) !! k = None.
Proof.
  destruct (decide (k = "category")) as [->|H1]; [by left|].
  destruct (decide (k = "courses")) as [->|H2]; [by left|].
  right. cbn [list_to_map foldr curry fst snd].
  by rewrite !lookup_insert_ne, lookup_empty.
Qed.

(** For a non-empty list of courses, whatever the template: when
    [format_whatsapp_message] returns a text at all, the text is what the
    template gives with no argument, so it shows nothing of any course nor
    of the category.  The same template has to format the fields of a
    course and those of the frame, and no name is in both. *)
Theorem format_whatsapp_message_shows_no_course
    (course : gmap string Py.value) rest name template text :
  format_whatsapp_message (course :: rest) name template = inr text →
  Py.format template ∅ = inr text.
Proof.
  unfold format_whatsapp_message. cbn [format_courses].
  destruct (course_text template course) as [e|x] eqn:E1; [done|].
  cbn [mbind Py.exn_bind].
  destruct (format_courses template rest) as [e|texts]; [done|].
  cbn [mbind Py.exn_bind mret Py.exn_ret].
  intros E2. revert E1. unfold course_text, Py.subscript.
  destruct (course !! "title") as [t|]; [|done].
  destruct (course !! "url") as [u|]; [|done].
  cbn [mbind Py.exn_bind]. intros E1.
  unfold Py.format in *.
  eapply format_scan_disjoint; [|exact E1|exact E2].
  intros k. apply frame_kwargs_disjoint.
Qed.

Lemma format_whatsapp_message_shows_no_course_witness :
  Py.format "New courses today" ∅ = inr "New courses today".
Proof.
  apply (format_whatsapp_message_shows_no_course
           (as_dict {| title := "T"; description := "D"; url := "https://u";
                       udemy_url := None; original_price := "N/A";
                       coupon_code := None; expiry_date := None;
                       category := "other" |})
           [] "other" "New courses today" "New courses today").
  reflexivity.
Defined.

(** *** The heading of the frame *)










End composer_more.

(** ** Expiry normalization: fixed points, emptiness, leap years *)

Section expiry_more.
Import Utils.

Lemma strptime_long_date y m d :
  ∃ e, strptime_Ymd (strftime_B_d_Y (y, m, d)) = inl e.
Proof.
  unfold strftime_B_d_Y.
  do 12 (destruct m as [|m]; [eexists; reflexivity|]).
  eexists; reflexivity.
Qed.

Lemma long_date_nonempty y m d :
  Main.truthy (strftime_B_d_Y (y, m, d)) = true.
Proof.
  unfold strftime_B_d_Y.
  do 12 (destruct m as [|m]; [reflexivity|]). reflexivity.
Qed.

Lemma parse_expiry_date_fixed s :
  (∃ e, strptime_Ymd s = inl e) → Main.truthy s = true →
  parse_expiry_date (Some s) = Some s.
Proof.
  intros [e He] Hne. destruct s as [|c s]; [done|].
  unfold parse_expiry_date. by rewrite He.
Qed.

(** Normalizing twice is normalizing once: a reformatted date is not itself
    in the form [strptime] accepts, and a text returned unchanged is
    returned unchanged again. *)
Theorem parse_expiry_date_idempotent date_str :
  parse_expiry_date (parse_expiry_date date_str) = parse_expiry_date date_str.
Proof.
  destruct date_str as [[|c s]|]; [done| |done].
  assert (∃ t, parse_expiry_date (Some (String c s)) = Some t ∧
               parse_expiry_date (Some t) = Some t) as (t & -> & ->); [|done].
  destruct (strptime_Ymd (String c s)) as [e|[[y m] d]] eqn:E.
  - exists (String c s). unfold parse_expiry_date. by rewrite E.
  - exists (strftime_B_d_Y (y, m, d)). split.
    + unfold parse_expiry_date. by rewrite E.
    + apply parse_expiry_date_fixed;
        [apply strptime_long_date | apply long_date_nonempty].
Qed.


(** The result is absent exactly for an absent or empty input, and a
    result that is present is never the empty text. *)
Theorem parse_expiry_date_absent date_str :
  (parse_expiry_date date_str = None ↔
   date_str = None ∨ date_str = Some EmptyString) ∧
  (∀ s, parse_expiry_date date_str = Some s → Main.truthy s = true).
Proof.
  destruct date_str as [[|c s]|].
  - split; [split; [by right | done] | done].
  - unfold parse_expiry_date.
    destruct (strptime_Ymd (String c s)) as [e|[[y m] d]] eqn:E.
    + split; [split; [done | by intros [|]] | by intros ? [= <-]].
    + split; [split; [done | by intros [|]] |].
      intros ? [= <-]. apply long_date_nonempty.
  - split; [split; [by left | done] | done].
Qed.



(** 1900 is divisible by 100 and not by 400: no leap year. *)
Example parse_expiry_date_1900 :
  parse_expiry_date (Some "1900-02-29") = Some "1900-02-29" ∧
  parse_expiry_date (Some "2000-02-29") = Some "February 29, 2000".
Proof. split; reflexivity. Qed.

End expiry_more.

(** ** Listings: what is skipped, what is requested, what a course holds *)

Section listing_more.
Import Config Utils Main.
Context {world : Type} (navigate : world → string → world * outcome).

(** *** The Udemy link of a detail page *)

Lemma udemy_href_Some href u :
  udemy_href href = Some u ↔ href = Some u ∧ Substring "udemy.com" u.
Proof.
  unfold udemy_href. destruct href as [x|]; [|naive_solver].
  destruct (Py.contains "udemy.com" x) eqn:E.
  - apply contains_spec in E as E'. destruct x as [|c x].
    + by apply contains_spec in E'.
    + simpl. split; [by intros [= <-] | by intros [[= <-] _]].
  - rewrite andb_false_r. apply contains_false in E. naive_solver.
Qed.

Lemma udemy_href_None href :
  udemy_href href = None ↔ ∀ x, href = Some x → ¬ Substring "udemy.com" x.
Proof.
  split.
  - intros Hn x -> Hsub. by rewrite (proj2 (udemy_href_Some (Some x) x)) in Hn.
  - intros Hno. destruct (udemy_href href) as [u|] eqn:E; [|done].
    apply udemy_href_Some in E as [-> Hsub]. by destruct (Hno u).
Qed.

Lemma head_omap_Some {A B} (f : A → option B) (l : list A) y :
  head (omap f l) = Some y ↔
  ∃ pre x post, l = pre ++ x :: post ∧ f x = Some y ∧ ∀ z, z ∈ pre → f z = None.
Proof.
  induction l as [|a l IH]; simpl.
  - split; [done | by intros ([|??] & ? & ? & ? & _)].
  - destruct (f a) as [b|] eqn:E; simpl.
    + split.
      * intros [= ->]. exists [], a, l. split_and!; [done..|]. by intros ? ?%elem_of_nil.
      * intros ([|a' pre] & x & post & El & Hx & Hpre).
        -- injection El as -> ->. congruence.
        -- injection El as -> ->. rewrite (Hpre a') in E by left. done.
    + rewrite IH. split.
      * intros (pre & x & post & -> & Hx & Hpre).
        exists (a :: pre), x, post. split_and!; [done..|].
        intros z [->|Hz]%elem_of_cons; [done | by apply Hpre].
      * intros ([|a' pre] & x & post & El & Hx & Hpre).
        -- injection El as -> ->. congruence.
        -- injection El as -> ->. exists pre, x, post. split_and!; [done..|].
           intros z Hz. apply Hpre. by right.
Qed.

Lemma head_omap_None {A B} (f : A → option B) (l : list A) :
  head (omap f l) = None ↔ ∀ z, z ∈ l → f z = None.
Proof.
  induction l as [|a l IH]; simpl.
  - split; [by intros _ ? ?%elem_of_nil | done].
  - destruct (f a) as [b|] eqn:E; simpl.
    + split; [done|]. intros H. rewrite (H a) in E by left. done.
    + rewrite IH. split.
      * intros H z [->|Hz]%elem_of_cons; [done | by apply H].
      * intros H z Hz. apply H. by right.
Qed.

(** The Udemy URL of a detail page is the [href] of its first anchor whose
    [href] contains the text [udemy.com] (anywhere in it, not only in the
    host), and there is none exactly when no anchor has such an [href]. *)
Theorem find_udemy_link_first doc :
  (∀ u, find_udemy_link doc = Some u ↔
        ∃ pre post, anchors doc = pre ++ Some u :: post ∧
                    Substring "udemy.com" u ∧
                    ∀ x, Some x ∈ pre → ¬ Substring "udemy.com" x) ∧
  (find_udemy_link doc = None ↔
   ∀ x, Some x ∈ anchors doc → ¬ Substring "udemy.com" x).
Proof.
  change (find_udemy_link doc) with (head (omap udemy_href (anchors doc))).
  split.
  - intros u. rewrite head_omap_Some. split.
    + intros (pre & x & post & -> & [-> Hsub]%udemy_href_Some & Hpre).
      exists pre, post. split_and!; [done..|].
      intros x Hx. by apply (proj1 (udemy_href_None (Some x)) (Hpre _ Hx)).
    + intros (pre & post & -> & Hsub & Hpre).
      exists pre, (Some u), post. split_and!; [done | by apply udemy_href_Some |].
      intros z Hz. apply udemy_href_None. intros x ->. by apply Hpre.
  - rewrite head_omap_None. split.
    + intros H x Hx. by apply (proj1 (udemy_href_None (Some x)) (H _ Hx)).
    + intros H z Hz. apply udemy_href_None. intros x ->. by apply H.
Qed.


(** *** Trimming *)






(** *** Inversion of [parse_course_element] *)



Lemma parse_course_element_Some d element d' c :
  parse_course_element navigate d element = (d', Some c) →
  ∃ heading href detail,
    find_heading element = Some heading ∧ find_a element = Some href ∧
    coupon_url_of href = Some detail ∧
    d' = (visit_coupon_page navigate d detail).1.1 ∧
    title c = Py.strip heading ∧
    description c = match find_description element with
                    | Some text => Py.strip text
                    | None => Py.strip heading
                    end ∧
    original_price c = match find_price element with
                       | Some text => Py.strip text
                       | None => "N/A"
                       end ∧
    category c = categorize_course (title c) (description c) CATEGORIES ∧
    expiry_date c = match find_expiry element with
                    | Some text => parse_expiry_date (Some (Py.strip text))
                    | None => None
                    end ∧
    udemy_url c = (visit_coupon_page navigate d detail).2 ∧
    url c = match udemy_url c with
            | Some u => if truthy u then u else (visit_coupon_page navigate d detail).1.2
            | None => (visit_coupon_page navigate d detail).1.2
            end ∧
    extract_coupon_code (udemy_url c) = inr (coupon_code c).
Proof.
  unfold parse_course_element.
  destruct (find_heading element) as [heading|]; [|done].
  destruct (find_a element) as [href|]; [|done].
  destruct (coupon_url_of href) as [detail|] eqn:Hc; [|done].
  destruct (visit_coupon_page navigate d detail) as [[d1 u1] r1] eqn:Hv.
  destruct (extract_coupon_code r1) as [e|code] eqn:E; [done|].
  intros [= <- <-]. exists heading, href, detail. rewrite Hv. by split_and!.
Qed.

Lemma parse_course_element_None d element :
  (parse_course_element navigate d element).2 = None →
  parse_course_element navigate d element = (d, None) ∧
  (find_heading element = None ∨ find_a element = None ∨
   ∃ href, find_a element = Some href ∧ coupon_url_of href = None).
Proof.
  destruct (find_heading element) as [heading|] eqn:Hh.
  2: { intros _. unfold parse_course_element. rewrite Hh. auto. }
  destruct (find_a element) as [href|] eqn:Ha.
  2: { intros _. unfold parse_course_element. rewrite Hh, Ha. auto. }
  destruct (coupon_url_of href) as [detail|] eqn:Hc.
  2: { intros _. unfold parse_course_element. rewrite Hh, Ha, Hc. eauto 10. }
  destruct (parse_course_element_usable navigate d element heading href detail Hh Ha Hc)
    as (c & -> & _). done.
Qed.

(** *** Requests *)

Lemma visit_coupon_page_requests d u :
  (requests (visit_coupon_page navigate d u).1.1 = requests d ++ [u] ∧
   (visit_coupon_page navigate d u).1.2 = u) ∨
  (requests (visit_coupon_page navigate d u).1.1
   = requests d ++ [u; Py.replace u "real.discount" "www.real.discount"] ∧
   (visit_coupon_page navigate d u).1.2
   = Py.replace u "real.discount" "www.real.discount").
Proof.
  unfold visit_coupon_page, driver_get.
  destruct (navigate (net d) u) as [w1 [msg|msg|doc]]; [|by left..].
  destruct (Py.contains "ERR_NAME_NOT_RESOLVED" msg); [|by left].
  simpl net. destruct (navigate w1 _) as [w2 o2]. right.
  simpl requests. rewrite <- (assoc_L (++)). by destruct o2.
Qed.

Lemma visit_coupon_page_udemy d u x :
  (visit_coupon_page navigate d u).2 = Some x →
  truthy x = true ∧ Substring "udemy.com" x.
Proof.
  assert (∀ doc, find_udemy_link doc = Some x →
                 truthy x = true ∧ Substring "udemy.com" x) as Hdoc.
  { intros doc.
    change (find_udemy_link doc) with (head (omap udemy_href (anchors doc))).
    intros (pre & h & post & _ & [-> Hsub]%udemy_href_Some & _)%head_omap_Some.
    split; [|done]. destruct x; [|done]. by apply contains_spec in Hsub. }
  unfold visit_coupon_page, driver_get.
  destruct (navigate (net d) u) as [w1 [msg|msg|doc]]; [|done|apply Hdoc].
  destruct (Py.contains "ERR_NAME_NOT_RESOLVED" msg); [|done].
  simpl net. destruct (navigate w1 _) as [w2 [msg2|msg2|doc2]]; [done..|apply Hdoc].
Qed.



(** *** What a returned course holds *)


Lemma replace_absent s old new :
  ¬ Substring old s → Py.replace s old new = s.
Proof.
  intros Hno%find_first_None. unfold Py.replace.
  destruct (String.length s); [done|]. cbn [Py.replace_at]. by rewrite Hno.
Qed.




(** How a returned course was resolved.  When a Udemy link was found it is
    the URL of the course and contains [udemy.com].  When none was found
    the course has no coupon code and its URL is the last URL that was
    requested for it.  A coupon code is only ever present together with a
    Udemy link that contains [couponCode=], and holds no ampersand. *)
Theorem course_resolution d element d' c :
  parse_course_element navigate d element = (d', Some c) →
  (∀ u, udemy_url c = Some u → url c = u ∧ Substring "udemy.com" u) ∧
  (udemy_url c = None → coupon_code c = None ∧ last (requests d') = Some (url c)) ∧
  (∀ code, coupon_code c = Some code →
     ∃ u, udemy_url c = Some u ∧ Substring coupon_param u ∧ ¬ Substring "&" code).
Proof.
  intros (heading & href & detail & Hh & Ha & Hc & -> & Ht & Hd & Hp & Hcat
          & He & Hu & Hurl & Hcode)%parse_course_element_Some.
  split_and!.
  - intros u Eu. rewrite Eu in Hu, Hurl. symmetry in Hu.
    apply visit_coupon_page_udemy in Hu as [Htr Hsub]. by rewrite Htr in Hurl.
  - intros Eu. rewrite Eu in Hurl, Hcode. injection Hcode as <-. split; [done|].
    rewrite Hurl.
    destruct (visit_coupon_page_requests d detail) as [[-> ->]|[-> ->]].
    + by rewrite last_snoc.
    + change [detail; ?r] with ([detail] ++ [r]).
      by rewrite (assoc_L (++)), last_snoc.
  - intros code Ecode. rewrite Ecode in Hcode.
    destruct (udemy_url c) as [u|]; [|done]. exists u. split; [done|].
    rewrite extract_coupon_code_eq in Hcode. injection Hcode as Hcode.
    destruct (Py.find_first coupon_param u) as [[a b]|] eqn:E; [|done].
    split.
    { apply find_first_Some in E as [-> _]. by exists a, b. }
    destruct (split_sep_head b coupon_param) as (p1 & ps1 & r1 & E1 & _); [done|].
    rewrite E1 in Hcode. cbn in Hcode.
    destruct (split_sep_head p1 "&") as (p2 & ps2 & r2 & E2 & _ & Hp2 & _); [done|].
    rewrite E2 in Hcode. cbn in Hcode. by injection Hcode as <-.
Qed.

(** On a DNS failure the retry asks for the coupon URL rewritten; a coupon
    URL that does not contain [real.discount] is not changed by the
    rewriting, so the same URL is requested a second time. *)
Theorem visit_coupon_page_retry_same d u w1 msg :
  ¬ Substring "real.discount" u →
  navigate (net d) u = (w1, NavigationError msg) →
  Substring "ERR_NAME_NOT_RESOLVED" msg →
  requests (visit_coupon_page navigate d u).1.1 = requests d ++ [u; u] ∧
  (visit_coupon_page navigate d u).1.2 = u.
Proof.
  intros Hno Hnav Hdns%contains_spec.
  unfold visit_coupon_page, driver_get. rewrite Hnav, Hdns.
  rewrite (replace_absent u) by done. simpl net.
  destruct (navigate w1 u) as [w2 o2]. simpl requests.
  rewrite <- (assoc_L (++)). by destruct o2.
Qed.

End listing_more.


Lemma course_resolution_witness :
  ∃ c, (Main.parse_course_element Demo.navigate Demo.fresh Demo.ethical_hacking).2
       = Some c ∧
       ∀ code, Main.coupon_code c = Some code →
         ∃ u, Main.udemy_url c = Some u ∧ Substring Main.coupon_param u ∧
              ¬ Substring "&" code.
Proof.
  eexists. split; [reflexivity|].
  exact (proj2 (proj2 (course_resolution Demo.navigate Demo.fresh
                         Demo.ethical_hacking _ _ eq_refl))).
Defined.

Lemma visit_coupon_page_retry_same_witness :
  Main.requests (Main.visit_coupon_page Demo.navigate Demo.fresh
                   "https://coupons.example.org/go/dns").1.1
  = Main.requests Demo.fresh ++ ["https://coupons.example.org/go/dns";
                                 "https://coupons.example.org/go/dns"] ∧
  (Main.visit_coupon_page Demo.navigate Demo.fresh
     "https://coupons.example.org/go/dns").1.2
  = "https://coupons.example.org/go/dns".
Proof.
  apply (visit_coupon_page_retry_same Demo.navigate Demo.fresh
           "https://coupons.example.org/go/dns" 1
           "unknown error: net::ERR_NAME_NOT_RESOLVED").
  - apply contains_false. reflexivity.
  - reflexivity.
  - apply contains_spec. reflexivity.
Defined.

(** ** The scrape pass: cache, timestamps, requests, order *)

Section pass_more.
Import Config Utils Main.
Context {world : Type} (navigate : world → string → world * outcome)
        (now : world → string).

Lemma first_seen_urls seen (l : list course) :
  seen ∪ list_to_set (url <$> first_seen seen l)
  = seen ∪ list_to_set (url <$> l).
Proof.
  revert seen. induction l as [|c l IH]; intros seen; [done|].
  cbn [first_seen]. destruct (decide (url c ∈ seen)) as [Hin|Hout].
  - rewrite bool_decide_eq_true_2 by done. rewrite IH, fmap_cons. set_solver.
  - rewrite bool_decide_eq_false_2 by done. rewrite !fmap_cons.
    cbn [list_to_set foldr]. specialize (IH ({[url c]} ∪ seen)). set_solver.
Qed.

Lemma first_seen_sublist seen (l : list course) : first_seen seen l `sublist_of` l.
Proof.
  revert seen. induction l as [|c l IH]; intros seen; [done|].
  cbn [first_seen]. destruct (bool_decide (url c ∈ seen)).
  - by apply sublist_cons.
  - by apply sublist_skip.
Qed.

Lemma parsed_courses_length (elements : list element) d :
  length (parsed_courses navigate elements d) ≤ length elements.
Proof.
  revert d. induction elements as [|e rest IH]; intros d; [done|].
  cbn [parsed_courses]. destruct (bool_decide _ && bool_decide _).
  - destruct (parse_course_element navigate d e) as [d1 [c|]]; simpl;
      specialize (IH d1); lia.
  - specialize (IH d). simpl. lia.
Qed.

(** The loop keeps every entry of the cache, and gives each new key a
    time read from the clock. *)
Lemma scrape_loop_keeps elements d (cache : gmap string string) courses :
  cache ⊆ (scrape_loop navigate now elements d cache courses).1.2 ∧
  ∀ u t, (scrape_loop navigate now elements d cache courses).1.2 !! u = Some t →
         cache !! u = Some t ∨ ∃ w, t = now w.
Proof.
  revert d cache courses.
  induction elements as [|e rest IH]; intros d cache courses; [by auto|].
  cbn [scrape_loop].
  destruct (bool_decide _ && bool_decide _); [|apply IH].
  destruct (parse_course_element navigate d e) as [d1 [c|]]; [|apply IH].
  destruct (decide (url c ∈ dom cache)) as [Hin|Hout].
  - rewrite bool_decide_eq_false_2 by (by intros ?). apply IH.
  - rewrite bool_decide_eq_true_2 by done.
    destruct (IH d1 (<[url c := now (net d1)]> cache) (courses ++ [c])) as [Hsub Hnew].
    split.
    + etrans; [|exact Hsub]. apply insert_subseteq. by apply not_elem_of_dom.
    + intros u t Hu. destruct (Hnew u t Hu) as [Hc|?]; [|by right].
      destruct (decide (url c = u)) as [<-|Hne].
      * rewrite lookup_insert_eq in Hc. injection Hc as <-. right. eauto.
      * rewrite lookup_insert_ne in Hc by done. by left.
Qed.

Lemma parse_course_element_requests d element :
  ∃ l, requests (parse_course_element navigate d element).1 = requests d ++ l ∧
       length l ≤ 2.
Proof.
  destruct (parse_course_element navigate d element) as [d' [c|]] eqn:E.
  - apply (parse_course_element_Some navigate) in E
      as (heading & href & detail & _ & _ & _ & -> & _).
    cbn [fst].
    destruct (visit_coupon_page_requests navigate d detail) as [[-> _]|[-> _]];
      eexists; (split; [reflexivity | simpl; lia]).
  - pose proof (parse_course_element_None navigate d element) as H.
    rewrite E in H. destruct (H eq_refl) as [[= ->] _].
    exists []. split; [by rewrite app_nil_r | simpl; lia].
Qed.

Lemma scrape_loop_requests elements d (cache : gmap string string) courses :
  ∃ l, requests (scrape_loop navigate now elements d cache courses).1.1
       = requests d ++ l ∧
       length l ≤ 2 * length elements.
Proof.
  revert d cache courses.
  induction elements as [|e rest IH]; intros d cache courses.
  - exists []. split; [by rewrite app_nil_r | simpl; lia].
  - cbn [scrape_loop].
    destruct (bool_decide _ && bool_decide _).
    2: { destruct (IH d cache courses) as (l & -> & Hl). exists l. split; [done|].
         simpl. lia. }
    destruct (parse_course_element_requests d e) as (l1 & E1 & Hl1).
    destruct (parse_course_element navigate d e) as [d1 r]. simpl in E1.
    assert (∀ (cache' : gmap string string) courses',
              ∃ l, requests (scrape_loop navigate now rest d1 cache' courses').1.1
                   = requests d ++ l ∧ length l ≤ 2 * length (e :: rest)) as Hrest.
    { intros cache' courses'. destruct (IH d1 cache' courses') as (l & -> & Hl).
      exists (l1 ++ l). rewrite E1, (assoc_L (++)). split; [done|].
      rewrite length_app. simpl. lia. }
    destruct r as [c|]; [|apply Hrest].
    destruct (bool_decide (url c ∉ dom cache)); apply Hrest.
Qed.

(** What a scrape pass leaves behind.  The keys of the scraper's cache
    afterwards are the keys before and the URLs of the courses returned;
    the group ids are untouched; and either the pass failed on the listing
    page, in which case no course is returned and cache and file are as
    before, or the file now holds the scraper's cache. *)
Theorem scrape_courses_outcome self file :
  dom (cache (scrape_courses navigate now self file).1.1)
  = dom (cache self) ∪ list_to_set (url <$> (scrape_courses navigate now self file).2) ∧
  group_ids (scrape_courses navigate now self file).1.1 = group_ids self ∧
  (((∀ soup, (navigate (net (driver_of self)) BASE_URL).2 ≠ Rendered soup) ∧
    (scrape_courses navigate now self file).2 = [] ∧
    cache (scrape_courses navigate now self file).1.1 = cache self ∧
    (scrape_courses navigate now self file).1.2 = file) ∨
   ((∃ soup, (navigate (net (driver_of self)) BASE_URL).2 = Rendered soup) ∧
    (scrape_courses navigate now self file).1.2
    = Some (cache (scrape_courses navigate now self file).1.1))).
Proof.
  unfold scrape_courses, driver_get.
  destruct (navigate (net (driver_of self)) BASE_URL) as [w [msg|msg|soup]].
  - simpl. split_and!; [set_solver | done |]. left. by split_and!.
  - simpl. split_and!; [set_solver | done |]. left. by split_and!.
  - destruct (scrape_loop_first_seen navigate now (find_all_li soup)
                {| net := w; requests := requests (driver_of self) ++ [BASE_URL] |}
                (cache self) []) as (d' & cache' & -> & Hdom).
    simpl. split_and!; [|done|right; eauto].
    rewrite Hdom. symmetry. apply first_seen_urls.
Qed.

(** A pass never changes nor removes an entry of the cache: every URL keeps
    the time it was first given.  Each entry that is new after the pass
    holds a time read from the clock. *)
Theorem scrape_courses_keeps_times self file :
  cache self ⊆ cache (scrape_courses navigate now self file).1.1 ∧
  ∀ u t, cache (scrape_courses navigate now self file).1.1 !! u = Some t →
         cache self !! u = Some t ∨ ∃ w, t = now w.
Proof.
  unfold scrape_courses.
  destruct (driver_get navigate (driver_of self) BASE_URL) as [d [msg|msg|soup]];
    [by auto..|].
  pose proof (scrape_loop_keeps (find_all_li soup) d (cache self) []) as H.
  by destruct (scrape_loop navigate now (find_all_li soup) d (cache self) [])
    as [[d' cache'] courses].
Qed.

(** The requests of a pass are appended to the log of the session: first
    the listing page, then at most two per [<li>] element of the listing;
    a pass whose listing page fails makes the one request only. *)
Theorem scrape_courses_requests self file :
  ∃ l,
    requests (driver_of (scrape_courses navigate now self file).1.1)
    = requests (driver_of self) ++ BASE_URL :: l ∧
    length l ≤ 2 * match (navigate (net (driver_of self)) BASE_URL).2 with
                   | Rendered soup => length (find_all_li soup)
                   | _ => 0
                   end.
Proof.
  unfold scrape_courses, driver_get.
  destruct (navigate (net (driver_of self)) BASE_URL) as [w [msg|msg|soup]].
  - exists []. by simpl.
  - exists []. by simpl.
  - destruct (scrape_loop_requests (find_all_li soup)
                {| net := w; requests := requests (driver_of self) ++ [BASE_URL] |}
                (cache self) []) as (l & E & Hl).
    destruct (scrape_loop navigate now (find_all_li soup) _ (cache self) [])
      as [[d' cache'] courses].
    simpl in *. exists l. rewrite E, <- (assoc_L (++)). done.
Qed.

(** The courses returned are in page order: they are what remains of the
    parsed courses after leaving some out, so there are at most as many as
    the listing has [<li>] elements. *)
Theorem scrape_courses_page_order self file :
  match (navigate (net (driver_of self)) BASE_URL) with
  | (w, Rendered soup) =>
      (scrape_courses navigate now self file).2
        `sublist_of` parsed_courses navigate (find_all_li soup)
                       {| net := w;
                          requests := requests (driver_of self) ++ [BASE_URL] |} ∧
      length (scrape_courses navigate now self file).2 ≤ length (find_all_li soup)
  | _ => (scrape_courses navigate now self file).2 = []
  end.
Proof.
  unfold scrape_courses, driver_get.
  destruct (navigate (net (driver_of self)) BASE_URL) as [w [msg|msg|soup]];
    [done..|].
  destruct (scrape_loop_first_seen navigate now (find_all_li soup)
              {| net := w; requests := requests (driver_of self) ++ [BASE_URL] |}
              (cache self) []) as (d' & cache' & -> & _).
  simpl. pose proof (first_seen_sublist (dom (cache self))
    (parsed_courses navigate (find_all_li soup)
       {| net := w; requests := requests (driver_of self) ++ [BASE_URL] |})) as Hsub.
  split; [done|]. apply sublist_length in Hsub.
  etrans; [exact Hsub | apply parsed_courses_length].
Qed.

End pass_more.

(** ** Grouping by category and sending *)

Section sending_more.
Import Config Utils Main.

Lemma add_course_keys c (g : list (string * list course)) :
  fst <$> add_course c g
  = if bool_decide (category c ∈ fst <$> g) then fst <$> g
    else (fst <$> g) ++ [category c].
Proof.
  induction g as [|[k cs] g IH]; [done|]. cbn [add_course].
  destruct (String.eqb_spec k (category c)) as [->|Hne].
  - rewrite fmap_cons. simpl fst. by rewrite bool_decide_eq_true_2 by left.
  - rewrite !fmap_cons, IH. simpl fst.
    destruct (decide (category c ∈ fst <$> g)) as [Hin|Hout].
    + rewrite !bool_decide_eq_true_2; [done | by right | done].
    + rewrite !bool_decide_eq_false_2; [done | | done].
      intros [E|?]%elem_of_cons; [by destruct Hne | done].
Qed.

Lemma add_course_entry c (g : list (string * list course)) k cs :
  NoDup (fst <$> g) →
  (k, cs) ∈ add_course c g →
  (k ≠ category c ∧ (k, cs) ∈ g) ∨
  (k = category c ∧
   ∃ cs0, cs = cs0 ++ [c] ∧ ((k, cs0) ∈ g ∨ (cs0 = [] ∧ k ∉ fst <$> g))).
Proof.
  induction g as [|[k0 cs0] g IH]; intros Hnd.
  - intros [= -> ->]%list_elem_of_singleton. right. split; [done|].
    exists []. split; [done|]. right. split; [done | by intros ?%elem_of_nil].
  - rewrite fmap_cons in Hnd. apply NoDup_cons in Hnd as [Hk0 Hnd].
    cbn [add_course]. destruct (String.eqb_spec k0 (category c)) as [->|Hne].
    + intros [[= -> ->]|Hin]%elem_of_cons.
      * right. split; [done|]. exists cs0. split; [done|]. left. left.
      * left. split; [|by right]. intros ->. apply Hk0.
        apply list_elem_of_fmap. by exists (category c, cs).
    + intros [[= -> ->]|Hin]%elem_of_cons.
      * left. split; [done | left].
      * destruct (IH Hnd Hin) as [[Hk Hg]|[-> (cs1 & -> & [Hg|[-> Hk]])]].
        -- left. split; [done | by right].
        -- right. split; [done|]. exists cs1. split; [done|]. left. by right.
        -- right. split; [done|]. exists []. split; [done|]. right. split; [done|].
           rewrite fmap_cons. intros [E|?]%elem_of_cons; [by destruct Hne | done].
Qed.

Lemma filter_category_none (l : list course) k :
  (∀ c, c ∈ l → category c ≠ k) → filter (fun c => category c = k) l = [].
Proof.
  induction l as [|c l IH]; intros H; [done|].
  rewrite filter_cons_False by (apply H; left). apply IH.
  intros c' Hc'. apply H. by right.
Qed.

Lemma categorized_courses_snoc l c :
  categorized_courses (l ++ [c]) = add_course c (categorized_courses l).
Proof. unfold categorized_courses. by rewrite foldl_app. Qed.

Lemma categorized_courses_inv (courses : list course) :
  NoDup (fst <$> categorized_courses courses) ∧
  (∀ name cs, (name, cs) ∈ categorized_courses courses →
     cs = filter (fun c => category c = name) courses ∧ cs ≠ []) ∧
  (∀ c, c ∈ courses → category c ∈ fst <$> categorized_courses courses).
Proof.
  induction courses as [|c l IH] using rev_ind; [|destruct IH as (Hnd & Hent & Hkeys)].
  - split_and!; [constructor | by intros ?? ?%elem_of_nil | by intros ? ?%elem_of_nil].
  - rewrite categorized_courses_snoc. split_and!.
    + rewrite add_course_keys. case_bool_decide; [done|].
      apply NoDup_app. split_and!; [done | | apply NoDup_singleton].
      intros x Hx Hx'%list_elem_of_singleton. by subst x.
    + intros name cs Hin. rewrite filter_app.
      destruct (add_course_entry _ _ _ _ Hnd Hin)
        as [[Hk Hg]|[-> (cs0 & -> & [Hg|[-> Hk]])]].
      * destruct (Hent _ _ Hg) as [-> Hne].
        rewrite (filter_cons_False _ c) by done. by rewrite filter_nil, app_nil_r.
      * destruct (Hent _ _ Hg) as [-> Hne].
        rewrite (filter_cons_True _ c) by done. rewrite filter_nil.
        split; [done|]. by intros [? ?]%app_eq_nil.
      * rewrite (filter_cons_True _ c) by done. rewrite filter_nil.
        rewrite filter_category_none; [done|].
        intros c' Hc' E. apply Hk. rewrite <- E. by apply Hkeys.
    + intros c' Hc'. rewrite add_course_keys.
      apply elem_of_app in Hc' as [Hc'|Hc'%list_elem_of_singleton]; [|subst c'].
      * specialize (Hkeys c' Hc'). case_bool_decide; [done|].
        apply elem_of_app. by left.
      * case_bool_decide; [done|]. apply elem_of_app. right. left.
Qed.

(** Grouping keeps every course, once, and keeps the order: the categories
    of the groups are pairwise different, each group is exactly the
    courses of its category in the order of the input (so no group is
    empty), and every course's category has a group. *)
Theorem categorized_courses_groups (courses : list course) :
  NoDup (fst <$> categorized_courses courses) ∧
  (∀ name cs, (name, cs) ∈ categorized_courses courses →
     cs = filter (fun c => category c = name) courses ∧ cs ≠ []) ∧
  (∀ c, c ∈ courses → category c ∈ fst <$> categorized_courses courses).
Proof. apply categorized_courses_inv. Qed.

Lemma send_all_nothing ids (groups : list (string * list course)) :
  (∀ name cs, (name, cs) ∈ groups → cs ≠ []) →
  (send_all ids groups).1 = [] ∧
  ((send_all ids groups).2 = None ∨
   (send_all ids groups).2 = Some (Py.KeyError "category")) ∧
  ((send_all ids groups).2 = None ↔
   ∀ name cs, (name, cs) ∈ groups → ids !! name = None).
Proof.
  induction groups as [|[name cs] groups IH]; intros Hne.
  - split_and!; [done | by left |]. split; [by intros _ ?? ?%elem_of_nil | done].
  - destruct cs as [|c cs]; [by destruct (Hne name []); [left|]|].
    destruct (ids !! name) as [gid|] eqn:Hid.
    + rewrite (send_all_raises ids name c cs groups gid Hid). simpl.
      split_and!; [done | by right |]. split; [done|].
      intros H. rewrite (H name (c :: cs)) in Hid by left. done.
    + cbn [send_all]. rewrite Hid.
      destruct IH as (H1 & H2 & H3).
      { intros n l Hin. apply (Hne n l). by right. }
      split_and!; [done..|]. rewrite H3. split.
      * intros H n l [[= -> ->]|Hin]%elem_of_cons; [done | by apply (H n l)].
      * intros H n l Hin. apply (H n l). by right.
Qed.

End sending_more.

Section process_more.
Import Config Utils Main.
Context {world : Type} (navigate : world → string → world * outcome)
        (now : world → string).

(** [process_and_send_courses] never hands a message to the sender.  It
    ends without an exception exactly when no new course has a category
    with a group id, and otherwise raises [KeyError('category')] out of
    the composer before anything is sent. *)
Theorem process_and_send_courses_sends_nothing self file :
  (process_and_send_courses navigate now self file).2.1 = [] ∧
  ((process_and_send_courses navigate now self file).2.2 = None ∨
   (process_and_send_courses navigate now self file).2.2
   = Some (Py.KeyError "category")) ∧
  ((process_and_send_courses navigate now self file).2.2 = None ↔
   ∀ c, c ∈ (scrape_courses navigate now self file).2 →
        group_ids self !! category c = None) ∧
  (process_and_send_courses navigate now self file).1
  = (scrape_courses navigate now self file).1.
Proof.
  unfold process_and_send_courses.
  assert (group_ids (scrape_courses navigate now self file).1.1 = group_ids self)
    as Hids.
  { unfold scrape_courses.
    destruct (driver_get navigate (driver_of self) BASE_URL) as [d [?|?|soup]];
      [done..|].
    by destruct (scrape_loop navigate now (find_all_li soup) d (cache self) [])
      as [[? ?] ?]. }
  destruct (scrape_courses navigate now self file) as [[self' file'] courses].
  simpl in Hids. simpl snd at 5.
  destruct courses as [|c0 courses0] eqn:Ec.
  - simpl. split_and!; [done | by left | | done].
    split; [by intros _ ? ?%elem_of_nil | done].
  - rewrite <- Ec. cbn [fst snd].
    destruct (categorized_courses_inv courses) as (Hnd & Hent & Hkeys).
    destruct (send_all_nothing (group_ids self') (categorized_courses courses))
      as (H1 & H2 & H3).
    { intros n l Hin. by destruct (Hent n l Hin). }
    rewrite Hids in *. split_and!; [done..| |done].
    rewrite H3. split.
    + intros H c Hc. specialize (Hkeys c Hc).
      apply list_elem_of_fmap in Hkeys as ([n l] & -> & Hin). by apply (H n l).
    + intros H n l Hin. destruct (Hent n l Hin) as [-> Hne].
      destruct (filter _ courses) as [|c l'] eqn:Ef; [done|].
      assert (c ∈ filter (fun c => category c = n) courses) as Hc
        by (rewrite Ef; left).
      apply list_elem_of_filter in Hc as [<- Hc]. by apply H.
Qed.

End process_more.

(** ** Start-up: the group ids read from the environment *)

Section group_ids_more.
Import Config Utils Main.
Variable getenv : string → option string.

Lemma load_step_lookup (rules : categories) (m : gmap string string) name gid :
  NoDup (fst <$> rules) →
  foldl (fun ids '(category, data) =>
           match getenv (Config.group_id data) with
           | Some group_id =>
               if truthy group_id then <[category := group_id]> ids else ids
           | None => ids
           end) m rules !! name = Some gid ↔
  (∃ data, (name, data) ∈ rules ∧ group_id_of getenv data gid) ∨
  (m !! name = Some gid ∧
   ∀ data g, (name, data) ∈ rules → ¬ group_id_of getenv data g).
Proof.
  revert m. induction rules as [|[k d] rules IH]; intros m Hnd.
  - simpl. split.
    + intros Hm. right. split; [done | by intros ?? ?%elem_of_nil].
    + intros [(data & ?%elem_of_nil & _)|[Hm _]]; done.
  - rewrite fmap_cons in Hnd. apply NoDup_cons in Hnd as [Hk Hnd].
    cbn [foldl]. rewrite IH by done. clear IH.
    assert (∀ data, (k, data) ∈ rules → False) as Hk'.
    { intros data Hin. apply Hk, list_elem_of_fmap. by exists (k, data). }
    unfold group_id_of.
    destruct (getenv (Config.group_id d)) as [g0|] eqn:Eg;
      [destruct (truthy g0) eqn:Et|].
    + split.
      * intros [(data & Hin & Hg)|[Hm Hno]].
        -- left. exists data. split; [by right | done].
        -- destruct (decide (k = name)) as [->|Hne].
           ++ rewrite lookup_insert_eq in Hm. injection Hm as ->.
              left. exists d. split; [left | done].
           ++ rewrite lookup_insert_ne in Hm by done. right. split; [done|].
              intros data g [[= -> ->]|Hin]%elem_of_cons; [done | by apply Hno].
      * intros [(data & [[= -> ->]|Hin]%elem_of_cons & Hg & Ht)|[Hm Hno]].
        -- right. rewrite Eg in Hg. injection Hg as ->.
           rewrite lookup_insert_eq. split; [done|].
           intros data g Hin. by destruct (Hk' data).
        -- left. exists data. by split.
        -- destruct (decide (k = name)) as [->|Hne].
           ++ destruct (Hno d g0); [left | done].
           ++ right. rewrite lookup_insert_ne by done. split; [done|].
              intros data g Hin. apply Hno. by right.
    + split.
      * intros [(data & Hin & Hg)|[Hm Hno]].
        -- left. exists data. split; [by right | done].
        -- right. split; [done|].
           intros data g [[= -> ->]|Hin]%elem_of_cons; [|by apply Hno].
           intros [Hg Ht]. rewrite Eg in Hg. injection Hg as ->. congruence.
      * intros [(data & [[= -> ->]|Hin]%elem_of_cons & Hg & Ht)|[Hm Hno]].
        -- rewrite Eg in Hg. injection Hg as ->. congruence.
        -- left. exists data. by split.
        -- right. split; [done|]. intros data g Hin. apply Hno. by right.
    + split.
      * intros [(data & Hin & Hg)|[Hm Hno]].
        -- left. exists data. split; [by right | done].
        -- right. split; [done|].
           intros data g [[= -> ->]|Hin]%elem_of_cons; [|by apply Hno].
           intros [Hg Ht]. by rewrite Eg in Hg.
      * intros [(data & [[= -> ->]|Hin]%elem_of_cons & Hg & Ht)|[Hm Hno]].
        -- by rewrite Eg in Hg.
        -- left. exists data. by split.
        -- right. split; [done|]. intros data g Hin. apply Hno. by right.
Qed.

Lemma CATEGORIES_NoDup : NoDup (fst <$> CATEGORIES).
Proof. apply (bool_decide_unpack (NoDup (fst <$> CATEGORIES))). by vm_compute. Qed.

(** A category has a group id exactly when it is a category of
    [CATEGORIES] whose environment variable is set and not empty, and the
    group id is then the value of that variable. *)
Theorem load_group_ids_spec name gid :
  load_group_ids getenv !! name = Some gid ↔
  ∃ data, (name, data) ∈ CATEGORIES ∧
          getenv (Config.group_id data) = Some gid ∧ truthy gid = true.
Proof.
  unfold load_group_ids. rewrite load_step_lookup by apply CATEGORIES_NoDup.
  unfold group_id_of. split; [|by left].
  intros [?|[Hm _]]; [done|]. by rewrite lookup_empty in Hm.
Qed.

End group_ids_more.

(** ** The configuration *)

Section config_more.
Import Config Utils.

(** The category names of [CATEGORIES] are pairwise different, every
    keyword is in lower case, and no keyword is shadowed: a title that is
    just a keyword is classified under the rule the keyword belongs to. *)
Theorem CATEGORIES_keywords_reachable :
  NoDup (fst <$> CATEGORIES) ∧
  ∀ name data kw,
    (name, data) ∈ CATEGORIES → kw ∈ keywords data →
    Py.lower kw = kw ∧ categorize_course kw EmptyString CATEGORIES = name.
Proof.
  split; [apply CATEGORIES_NoDup|].
  assert (forallb (fun r =>
            forallb (fun kw =>
              String.eqb (Py.lower kw) kw &&
              String.eqb (categorize_course kw EmptyString CATEGORIES) r.1)
              (keywords r.2)) CATEGORIES = true) as Hall
    by (vm_compute; reflexivity).
  intros name data kw Hin Hkw. rewrite forallb_forall in Hall.
  specialize (Hall (name, data) ltac:(by apply list_elem_of_In)).
  rewrite forallb_forall in Hall.
  specialize (Hall kw ltac:(by apply list_elem_of_In)).
  apply andb_true_iff in Hall as [H1%String.eqb_eq H2%String.eqb_eq]. done.
Qed.

End config_more.

(** ** The scroll loop *)

Section scrolling.
Variable height : nat → nat.

Lemma scroll_loop_spec turns last c :
  c < 5 → 5 ≤ turns + c →
  let r := scroll_loop height turns last c in
  (c < r.1 ∧ r.1 ≤ 5) ∧ r.2 = height r.1 ∧
  (r.1 < 5 → height r.1 = (if decide (r.1 = S c) then last else height (r.1 - 1))) ∧
  (∀ k, c < k < r.1 →
        height k ≠ (if decide (k = S c) then last else height (k - 1))).
Proof.
  revert last c. induction turns as [|turns IH]; intros last c Hc Hturns; [lia|].
  cbn [scroll_loop].
  destruct (height (S c) =? last) eqn:Eh; cbn [orb].
  { apply Nat.eqb_eq in Eh. cbn [fst snd].
    split; [lia|]. split; [done|]. split; [|intros; lia].
    intros _. by rewrite decide_True. }
  apply Nat.eqb_neq in Eh.
  destruct (5 <=? S c) eqn:E5.
  { apply Nat.leb_le in E5. cbn [fst snd].
    split; [lia|]. split; [done|]. split; intros; lia. }
  apply Nat.leb_gt in E5.
  specialize (IH (height (S c)) (S c) ltac:(lia) ltac:(lia)).
  cbv zeta in IH. destruct IH as (H1 & H2 & H3 & H4).
  set (r := scroll_loop height turns (height (S c)) (S c)) in *.
  cbv zeta. split; [lia|]. split; [done|]. split.
  - intros Hlt. rewrite decide_False by lia. specialize (H3 Hlt).
    destruct (decide (r.1 = S (S c))) as [E|]; [|done].
    rewrite H3, E. by replace (S (S c) - 1) with (S c) by lia.
  - intros k Hk. destruct (decide (k = S c)) as [->|Hne]; [done|].
    specialize (H4 k ltac:(lia)).
    destruct (decide (k = S (S c))) as [->|]; [|done].
    by replace (S (S c) - 1) with (S c) by lia.
Qed.

Lemma scroll_loop_turns turns turns' last c :
  c < 5 → 5 ≤ turns + c → 5 ≤ turns' + c →
  scroll_loop height turns last c = scroll_loop height turns' last c.
Proof.
  revert turns' last c. induction turns as [|turns IH];
    intros turns' last c Hc H1 H2; [lia|].
  destruct turns' as [|turns']; [lia|]. cbn [scroll_loop].
  destruct ((height (S c) =? last) || (5 <=? S c)) eqn:E; [done|].
  apply orb_false_iff in E as [_ E%Nat.leb_gt]. apply IH; lia.
Qed.

(** Scrolling the listing page stops after at least one and at most five
    scrolls, whatever the page does; five turns of the loop are always
    enough.  It stops before the fifth scroll only when a scroll left the
    height as it was, and each scroll before the last one changed the
    height. *)
Theorem scroll_to_load_bounded :
  (1 ≤ (scroll_to_load height).1 ∧ (scroll_to_load height).1 ≤ 5) ∧
  (scroll_to_load height).2 = height (scroll_to_load height).1 ∧
  ((scroll_to_load height).1 < 5 →
   height (scroll_to_load height).1 = height ((scroll_to_load height).1 - 1)) ∧
  (∀ k, 1 ≤ k < (scroll_to_load height).1 → height k ≠ height (k - 1)) ∧
  (∀ turns, 5 ≤ turns →
     scroll_loop height turns (height 0) 0 = scroll_to_load height).
Proof.
  unfold scroll_to_load.
  destruct (scroll_loop_spec 5 (height 0) 0 ltac:(lia) ltac:(lia))
    as (H1 & H2 & H3 & H4).
  set (r := scroll_loop height 5 (height 0) 0) in *.
  split; [lia|]. split; [done|]. split; [|split].
  - intros Hlt. specialize (H3 Hlt).
    destruct (decide (r.1 = 1)) as [E|]; [|done]. by rewrite H3, E.
  - intros k Hk. specialize (H4 k ltac:(lia)).
    destruct (decide (k = 1)) as [->|]; done.
  - intros turns Ht. apply scroll_loop_turns; lia.
Qed.

End scrolling.

(** A page that stops growing after the second scroll is scrolled three
    times; a page that always grows, five times. *)
Example scroll_to_load_examples :
  scroll_to_load (fun k => 1000 * Nat.min k 2) = (3, 2000) ∧
  scroll_to_load (fun k => 1000 * k) = (5, 5000).
Proof. split; reflexivity. Qed.
